(** * The 7 MHz SSB transceiver controller, firmware/7mhz_ssb_trx/7mhz_ssb_trx.ino

    A shallow embedding of the Arduino sketch: the global variables and the
    function-local statics form one [State] record, every handler is a
    function from [State] to [State], the values read from the hardware
    (encoder decoder, pins, [millis()]) are arguments, and every call to an
    external capability (synthesizer, output pin, EEPROM, display, serial
    port) is appended to a trace kept in the state.

    Target: Arduino Nano (ATmega328P): [unsigned long] is 32 bits wide,
    [uint64_t] arithmetic wraps modulo 2^64, multi-byte objects are laid out
    little-endian by [EEPROM.put]/[EEPROM.get]. *)

From Stdlib Require Import ZArith List Lia Bool String Ascii DecimalString.
From coqutil Require Import Byte Word.LittleEndianList.
From stdpp Require Import gmap.
Import ListNotations.
Local Open Scope Z_scope.

(** ** Machine integers *)

Definition wrap8 (x : Z) : Z := x mod 2 ^ 8.
Definition wrap16 (x : Z) : Z := x mod 2 ^ 16.
Definition wrap32 (x : Z) : Z := x mod 2 ^ 32.
Definition wrap64 (x : Z) : Z := x mod 2 ^ 64.

Definition add64 (a b : Z) : Z := wrap64 (a + b).
Definition sub64 (a b : Z) : Z := wrap64 (a - b).
Definition mul64 (a b : Z) : Z := wrap64 (a * b).
(** [unsigned long] subtraction, as in [millis() - last_ptt_time]. *)
Definition sub32 (a b : Z) : Z := wrap32 (a - b).

Definition in_u64 (x : Z) : bool := (0 <=? x) && (x <? 2 ^ 64).

(** ** Constants of the sketch *)

Definition PIN_ENC_A : Z := 2.
Definition PIN_ENC_B : Z := 3.
Definition PIN_PTT : Z := 4.
Definition PIN_ENC_SW : Z := 5.
Definition PIN_TX_EN : Z := 6.

Definition IF_FREQ : Z := 9000000.
Definition BFO_FREQ : Z := 8998500.
Definition FREQ_MIN : Z := 7000000.
Definition FREQ_MAX : Z := 7200000.
Definition FREQ_DEFAULT : Z := 7100000.

Definition STEP_10HZ : Z := 10.
Definition STEP_100HZ : Z := 100.
Definition STEP_1KHZ : Z := 1000.
Definition STEP_10KHZ : Z := 10000.

Definition EEPROM_FREQ_ADDR : Z := 0.
Definition EEPROM_STEP_ADDR : Z := 4.
Definition EEPROM_MAGIC_ADDR : Z := 8.
Definition EEPROM_MAGIC_VALUE : Z := 0xAA55.

Definition step_sizes : list Z := [STEP_10HZ; STEP_100HZ; STEP_1KHZ; STEP_10KHZ].
(** [sizeof(step_sizes) / sizeof(step_sizes[0])], a [uint8_t]. *)
Definition num_steps : Z := Z.of_nat (length step_sizes).
Definition debounce_delay : Z := 50.

(** Pin levels: [digitalRead] assigned to a [bool]. *)
Definition HIGH : bool := true.
Definition LOW : bool := false.

(** Results of [Rotary::process()] (Rotary.h of the Rotary library). *)
Definition DIR_NONE : Z := 0x0.
Definition DIR_CW : Z := 0x10.
Definition DIR_CCW : Z := 0x20.

(** [step_sizes[i]].  An index outside the array is undefined behaviour in
    C; the model then reads 0.  Both places that index the table do so with
    an index below [num_steps] (lemmas [stepCycle_index_in_range] and
    [loadSettings_step_inv]). *)
Definition step_sizes_at (i : Z) : Z := nth (Z.to_nat i) step_sizes 0.

(** ** External capabilities and the trace of calls made to them *)

Inductive clock : Type := SI5351_CLK0 | SI5351_CLK1 | SI5351_CLK2.

Inductive Output : Type :=
| SetFreq (centihertz : Z) (clk : clock)      (* si5351.set_freq(f, clk) *)
| DigitalWrite (pin : Z) (lvl : bool)         (* digitalWrite(pin, lvl) *)
| EepromPut (addr : Z) (bytes : list byte)    (* EEPROM.put(addr, object) *)
| Render (freq step : Z) (tx : bool)          (* updateDisplay(): one frame *)
| SerialPrint (msg : string)                  (* Serial.print(F(msg)) *)
| SerialPrintNum (n : Z)                      (* Serial.print / println of a number *)
| SerialPrintln (msg : string).               (* Serial.println(F(msg)) *)

(** ** The EEPROM: a byte store, erased cells read 0xFF *)

Definition EEPROM_read (e : gmap Z byte) (a : Z) : byte :=
  default (byte.of_Z 0xFF) (e !! a).

Fixpoint EEPROM_write_bytes (e : gmap Z byte) (a : Z) (bs : list byte) : gmap Z byte :=
  match bs with
  | [] => e
  | b :: bs' => EEPROM_write_bytes (<[a:=b]> e) (a + 1) bs'
  end.

(** [EEPROM.get(a, obj)] for an unsigned integer object of [n] bytes. *)
Definition EEPROM_get (n : nat) (e : gmap Z byte) (a : Z) : Z :=
  le_combine (List.map (fun i => EEPROM_read e (a + Z.of_nat i)) (seq 0 n)).

(** ** Program state *)

Record State : Type := mkState {
  frequency : Z;                   (* uint64_t *)
  step_size : Z;                   (* uint64_t *)
  tx_mode : bool;
  display_update_needed : bool;
  step_index : Z;                  (* uint8_t *)
  last_enc_sw_time : Z;            (* unsigned long *)
  last_ptt_time : Z;               (* unsigned long *)
  last_ptt_state : bool;           (* static local of handlePTT *)
  last_sw_state : bool;            (* static local of handleEncoderSwitch *)
  eeprom : gmap Z byte;
  trace : list Output              (* oldest call first *)
}.

Definition set_frequency (v : Z) (s : State) : State :=
  mkState v (step_size s) (tx_mode s) (display_update_needed s) (step_index s)
    (last_enc_sw_time s) (last_ptt_time s) (last_ptt_state s) (last_sw_state s)
    (eeprom s) (trace s).
Definition set_step_size (v : Z) (s : State) : State :=
  mkState (frequency s) v (tx_mode s) (display_update_needed s) (step_index s)
    (last_enc_sw_time s) (last_ptt_time s) (last_ptt_state s) (last_sw_state s)
    (eeprom s) (trace s).
Definition set_tx_mode (v : bool) (s : State) : State :=
  mkState (frequency s) (step_size s) v (display_update_needed s) (step_index s)
    (last_enc_sw_time s) (last_ptt_time s) (last_ptt_state s) (last_sw_state s)
    (eeprom s) (trace s).
Definition set_display_update_needed (v : bool) (s : State) : State :=
  mkState (frequency s) (step_size s) (tx_mode s) v (step_index s)
    (last_enc_sw_time s) (last_ptt_time s) (last_ptt_state s) (last_sw_state s)
    (eeprom s) (trace s).
Definition set_step_index (v : Z) (s : State) : State :=
  mkState (frequency s) (step_size s) (tx_mode s) (display_update_needed s) v
    (last_enc_sw_time s) (last_ptt_time s) (last_ptt_state s) (last_sw_state s)
    (eeprom s) (trace s).
Definition set_last_enc_sw_time (v : Z) (s : State) : State :=
  mkState (frequency s) (step_size s) (tx_mode s) (display_update_needed s) (step_index s)
    v (last_ptt_time s) (last_ptt_state s) (last_sw_state s)
    (eeprom s) (trace s).
Definition set_last_ptt_time (v : Z) (s : State) : State :=
  mkState (frequency s) (step_size s) (tx_mode s) (display_update_needed s) (step_index s)
    (last_enc_sw_time s) v (last_ptt_state s) (last_sw_state s)
    (eeprom s) (trace s).
Definition set_last_ptt_state (v : bool) (s : State) : State :=
  mkState (frequency s) (step_size s) (tx_mode s) (display_update_needed s) (step_index s)
    (last_enc_sw_time s) (last_ptt_time s) v (last_sw_state s)
    (eeprom s) (trace s).
Definition set_last_sw_state (v : bool) (s : State) : State :=
  mkState (frequency s) (step_size s) (tx_mode s) (display_update_needed s) (step_index s)
    (last_enc_sw_time s) (last_ptt_time s) (last_ptt_state s) v
    (eeprom s) (trace s).
Definition set_eeprom (v : gmap Z byte) (s : State) : State :=
  mkState (frequency s) (step_size s) (tx_mode s) (display_update_needed s) (step_index s)
    (last_enc_sw_time s) (last_ptt_time s) (last_ptt_state s) (last_sw_state s)
    v (trace s).
Definition set_trace (v : list Output) (s : State) : State :=
  mkState (frequency s) (step_size s) (tx_mode s) (display_update_needed s) (step_index s)
    (last_enc_sw_time s) (last_ptt_time s) (last_ptt_state s) (last_sw_state s)
    (eeprom s) v.

(** A call to an external capability. *)
Definition emit (o : Output) (s : State) : State := set_trace (trace s ++ [o]) s.

(** [EEPROM.put(a, v)] for an unsigned integer object of [n] bytes. *)
Definition EEPROM_put (n : nat) (a : Z) (v : Z) (s : State) : State :=
  let s := set_eeprom (EEPROM_write_bytes (eeprom s) a (le_split n v)) s in
  emit (EepromPut a (le_split n v)) s.

(** The globals as their initialisers leave them at power-on; the EEPROM
    keeps whatever it held. *)
Definition power_on (e : gmap Z byte) : State :=
  {| frequency := FREQ_DEFAULT;
     step_size := STEP_1KHZ;
     tx_mode := false;
     display_update_needed := true;
     step_index := 2;
     last_enc_sw_time := 0;
     last_ptt_time := 0;
     last_ptt_state := HIGH;
     last_sw_state := HIGH;
     eeprom := e;
     trace := [] |}.

(** ** The functions of the sketch *)

(** [updateVFO()] *)
Definition updateVFO (s : State) : State :=
  let vfo_freq := add64 (frequency s) IF_FREQ in
  let s := emit (SetFreq (mul64 vfo_freq 100) SI5351_CLK0) s in
  let s := emit (SerialPrint "VFO: ") s in
  let s := emit (SerialPrintNum (wrap32 (vfo_freq / 1000))) s in
  emit (SerialPrintln " kHz") s.

(** [handleEncoder()]; [result] is what [encoder.process()] returned. *)
Definition handleEncoder (result : Z) (s : State) : State :=
  if result =? DIR_CW then
    if add64 (frequency s) (step_size s) <=? FREQ_MAX then
      let s := set_frequency (add64 (frequency s) (step_size s)) s in
      let s := updateVFO s in
      set_display_update_needed true s
    else s
  else if result =? DIR_CCW then
    if frequency s >=? add64 (step_size s) FREQ_MIN then
      let s := set_frequency (sub64 (frequency s) (step_size s)) s in
      let s := updateVFO s in
      set_display_update_needed true s
    else s
  else s.

(** What a debounced handler reads in one call: the pin level, and the two
    readings of [millis()] it may take (the one compared with the time of
    the last accepted transition, and the one stored as the new such time). *)
Record Sample : Type := mkSample {
  level : bool;
  t_check : Z;
  t_store : Z
}.

(** [handlePTT()] *)
Definition handlePTT (i : Sample) (s : State) : State :=
  let ptt_state := level i in
  if negb (eqb ptt_state (last_ptt_state s)) then
    let s :=
      if sub32 (t_check i) (last_ptt_time s) >? debounce_delay then
        let s := set_last_ptt_time (t_store i) s in
        let new_tx_mode := eqb ptt_state LOW in
        if negb (eqb new_tx_mode (tx_mode s)) then
          let s := set_tx_mode new_tx_mode s in
          let s := emit (DigitalWrite PIN_TX_EN (if tx_mode s then HIGH else LOW)) s in
          let s := set_display_update_needed true s in
          emit (SerialPrintln (if tx_mode s then "TX" else "RX")) s
        else s
      else s in
    set_last_ptt_state ptt_state s
  else s.

(** [saveSettings()] *)
Definition saveSettings (s : State) : State :=
  let s := EEPROM_put 4 EEPROM_FREQ_ADDR (wrap32 (frequency s)) s in
  let s := EEPROM_put 1 EEPROM_STEP_ADDR (step_index s) s in
  EEPROM_put 2 EEPROM_MAGIC_ADDR (wrap16 EEPROM_MAGIC_VALUE) s.

(** The block of [handleEncoderSwitch()] guarded by the debounce test:
    the step change with its save. *)
Definition stepCycle (now : Z) (s : State) : State :=
  let s := set_last_enc_sw_time now s in
  let s := set_step_index (wrap8 ((step_index s + 1) mod num_steps)) s in
  let s := set_step_size (step_sizes_at (step_index s)) s in
  let s := set_display_update_needed true s in
  let s := saveSettings s in
  let s := emit (SerialPrint "Step: ") s in
  emit (SerialPrintNum (wrap32 (step_size s))) s.

(** [handleEncoderSwitch()] *)
Definition handleEncoderSwitch (i : Sample) (s : State) : State :=
  let sw_state := level i in
  let s :=
    if eqb sw_state LOW && eqb (last_sw_state s) HIGH then
      if sub32 (t_check i) (last_enc_sw_time s) >? debounce_delay then
        stepCycle (t_store i) s
      else s
    else s in
  set_last_sw_state sw_state s.

(** [updateDisplay()]: one frame drawn from the frequency, the step size and
    the transmit flag (what [drawFrequency], [drawStepIndicator] and
    [drawStatus] read). *)
Definition updateDisplay (s : State) : State :=
  emit (Render (frequency s) (step_size s) (tx_mode s)) s.

(** [loadSettings()] *)
Definition loadSettings (s : State) : State :=
  let magic := EEPROM_get 2 (eeprom s) EEPROM_MAGIC_ADDR in
  if magic =? EEPROM_MAGIC_VALUE then
    let saved_freq := EEPROM_get 4 (eeprom s) EEPROM_FREQ_ADDR in
    let s := set_step_index (EEPROM_get 1 (eeprom s) EEPROM_STEP_ADDR) s in
    let s :=
      if (saved_freq >=? FREQ_MIN) && (saved_freq <=? FREQ_MAX)
      then set_frequency saved_freq s else s in
    let s := if step_index s >=? num_steps then set_step_index 2 s else s in
    let s := set_step_size (step_sizes_at (step_index s)) s in
    emit (SerialPrintln "Settings loaded from EEPROM") s
  else
    emit (SerialPrintln "Using default settings") s.

(** [setupSi5351()]; [None] is the endless [while (1)] taken when the chip
    does not answer.  Drive strengths and the disabling of CLK2 are
    peripheral set-up and leave no entry in the trace. *)
Definition setupSi5351 (i2c_found : bool) (s : State) : option State :=
  if negb i2c_found then None
  else
    let s := updateVFO s in
    let s := emit (SetFreq (mul64 BFO_FREQ 100) SI5351_CLK1) s in
    Some (emit (SerialPrintln "Si5351 initialized") s).

(** [setup()]; [display_ok] is the result of [display.begin], [None] the
    halt on a missing peripheral. *)
Definition setup (display_ok i2c_found : bool) (s : State) : option State :=
  let s := emit (DigitalWrite PIN_TX_EN LOW) s in
  let s := emit (SerialPrintln "7MHz SSB Transceiver") s in
  let s := emit (SerialPrintln "Initializing...") s in
  let s := loadSettings s in
  if negb display_ok then None
  else
    match setupSi5351 i2c_found s with
    | None => None
    | Some s =>
        let s := updateDisplay s in
        Some (emit (SerialPrintln "Ready!") s)
    end.

(** What one iteration of [loop()] reads. *)
Record LoopInput : Type := mkLoopInput {
  enc : Z;            (* encoder.process() *)
  ptt : Sample;       (* PIN_PTT *)
  sw : Sample         (* PIN_ENC_SW *)
}.

(** [loop()] *)
Definition loop (i : LoopInput) (s : State) : State :=
  let s := handleEncoder (enc i) s in
  let s := handlePTT (ptt i) s in
  let s := handleEncoderSwitch (sw i) s in
  if display_update_needed s then
    let s := updateDisplay s in
    set_display_update_needed false s
  else s.

(** The reactive loop over a finite prefix of its inputs. *)
Definition run (inputs : list LoopInput) (s : State) : State :=
  fold_left (fun s i => loop i s) inputs s.

(** ** Checked arithmetic

    The same operations, each returning its wrapped result together with a
    flag telling whether the mathematical result fitted in 64 bits. *)

Definition Checked (A : Type) : Type := (A * bool)%type.
Definition ck_ret {A} (a : A) : Checked A := (a, true).
Definition ck_bind {A B} (m : Checked A) (k : A -> Checked B) : Checked B :=
  let r := k (fst m) in (fst r, snd m && snd r).

Notation "'let*' x ':=' m 'in' k" := (ck_bind m (fun x => k))
  (at level 10, x name, m at level 100, k at level 200).

Definition add64_ck (a b : Z) : Checked Z := (add64 a b, in_u64 (a + b)).
Definition sub64_ck (a b : Z) : Checked Z := (sub64 a b, in_u64 (a - b)).
Definition mul64_ck (a b : Z) : Checked Z := (mul64 a b, in_u64 (a * b)).

(** [updateVFO()] on checked operations. *)
Definition updateVFO_ck (s : State) : Checked State :=
  let* vfo_freq := add64_ck (frequency s) IF_FREQ in
  let* centihertz := mul64_ck vfo_freq 100 in
  let s := emit (SetFreq centihertz SI5351_CLK0) s in
  let s := emit (SerialPrint "VFO: ") s in
  let s := emit (SerialPrintNum (wrap32 (vfo_freq / 1000))) s in
  ck_ret (emit (SerialPrintln " kHz") s).

(** [handleEncoder()] on checked operations. *)
Definition handleEncoder_ck (result : Z) (s : State) : Checked State :=
  if result =? DIR_CW then
    let* sum := add64_ck (frequency s) (step_size s) in
    if sum <=? FREQ_MAX then
      let* f := add64_ck (frequency s) (step_size s) in
      let* s := updateVFO_ck (set_frequency f s) in
      ck_ret (set_display_update_needed true s)
    else ck_ret s
  else if result =? DIR_CCW then
    let* bound := add64_ck (step_size s) FREQ_MIN in
    if frequency s >=? bound then
      let* f := sub64_ck (frequency s) (step_size s) in
      let* s := updateVFO_ck (set_frequency f s) in
      ck_ret (set_display_update_needed true s)
    else ck_ret s
  else ck_ret s.

(** ** Predicates of the data model *)

(** The tuning range. *)
Definition in_band (f : Z) : Prop := FREQ_MIN <= f <= FREQ_MAX.

(** The step index is inside the table and the step size is the entry it
    selects. *)
Definition step_inv (s : State) : Prop :=
  0 <= step_index s < num_steps /\ step_size s = step_sizes_at (step_index s).

(** The values the sketch commands on the tunable channel, in order. *)
Definition vfo_commands (tr : list Output) : list Z :=
  flat_map (fun o => match o with SetFreq v SI5351_CLK0 => [v] | _ => [] end) tr.

(** A command value that stands for a frequency of the band. *)
Definition vfo_in_band (v : Z) : Prop :=
  exists f, in_band f /\ v = (f + IF_FREQ) * 100.

(** The commands sent so far all stand for frequencies of the band. *)
Definition commands_ok (s : State) : Prop :=
  Forall vfo_in_band (vfo_commands (trace s)).

(** The levels written to the transmit-enable pin, in order. *)
Definition tx_enable_writes (tr : list Output) : list bool :=
  flat_map (fun o => match o with
                     | DigitalWrite p l => if p =? PIN_TX_EN then [l] else []
                     | _ => [] end) tr.

(** The frames drawn, in order. *)
Definition renders (tr : list Output) : list (Z * Z * bool) :=
  flat_map (fun o => match o with Render f st tx => [(f, st, tx)] | _ => [] end) tr.

(** The number of completed [saveSettings()] calls: each ends with the
    write of the magic word. *)
Definition saves (tr : list Output) : nat :=
  length (List.filter (fun o => match o with
                           | EepromPut a _ => a =? EEPROM_MAGIC_ADDR
                           | _ => false end) tr).

(** A sequence of encoder results fed to [handleEncoder]. *)
Definition tune (results : list Z) (s : State) : State :=
  fold_left (fun s r => handleEncoder r s) results s.

(** A sequence of samples fed to [handlePTT]. *)
Definition ptt_samples (samples : list Sample) (s : State) : State :=
  fold_left (fun s i => handlePTT i s) samples s.

(** A sequence of samples fed to [handleEncoderSwitch]. *)
Definition sw_samples (samples : list Sample) (s : State) : State :=
  fold_left (fun s i => handleEncoderSwitch i s) samples s.

(** [stepCycle] applied once per given time stamp. *)
Definition stepCycles (times : list Z) (s : State) : State :=
  fold_left (fun s t => stepCycle t s) times s.

(** An EEPROM, erased but for one record laid out as [saveSettings()] lays
    it out: the frequency in 4 bytes at address 0, the step index in 1 byte
    at address 4, the magic word in 2 bytes at address 8. *)
Definition eeprom_record (freq step magic : Z) : gmap Z byte :=
  EEPROM_write_bytes
    (EEPROM_write_bytes
       (EEPROM_write_bytes ∅ EEPROM_FREQ_ADDR (le_split 4 freq))
       EEPROM_STEP_ADDR (le_split 1 step))
    EEPROM_MAGIC_ADDR (le_split 2 magic).

(** An iteration of [loop()] in which nothing happens at the inputs: no
    encoder tick, PTT line and switch both released. *)
Definition idle (now : Z) : LoopInput :=
  mkLoopInput DIR_NONE (mkSample HIGH now now) (mkSample HIGH now now).

(** What a frame shows. *)
Definition snapshot (s : State) : Z * Z * bool :=
  (frequency s, step_size s, tx_mode s).

(** ** The display

    What [updateDisplay()] sends to the display for one frame, as the list
    of calls made on the [Adafruit_SSD1306] object. *)

Inductive DisplayOp : Type :=
| ClearDisplay                           (* display.clearDisplay() *)
| SetTextSize (n : Z)                    (* display.setTextSize(n) *)
| SetCursor (x y : Z)                    (* display.setCursor(x, y) *)
| SetTextColor (c : Z)                   (* display.setTextColor(c) *)
| Print (msg : string)                   (* display.print(F(msg)) *)
| PrintNum (n : Z)                       (* display.print(n), n unsigned *)
| FillRect (x y w h c : Z)               (* display.fillRect(x, y, w, h, c) *)
| DrawRect (x y w h c : Z)               (* display.drawRect(x, y, w, h, c) *)
| DisplayShow.                           (* display.display() *)

(** Colours of Adafruit_SSD1306.h. *)
Definition SSD1306_BLACK : Z := 0.
Definition SSD1306_WHITE : Z := 1.

(** [drawFrequency()] *)
Definition drawFrequency (s : State) : list DisplayOp :=
  let freq_khz := wrap32 (frequency s / 1000) in
  let freq_hz := wrap32 (frequency s mod 1000) in
  let khz_part := wrap16 (freq_khz mod 1000) in
  let hz_part := wrap16 (freq_hz / 10) in
  [SetTextSize 2; SetCursor 0 8; PrintNum (freq_khz / 1000); Print "."]
  ++ (if khz_part <? 100 then [Print "0"] else [])
  ++ (if khz_part <? 10 then [Print "0"] else [])
  ++ [PrintNum khz_part; Print "."]
  ++ (if hz_part <? 10 then [Print "0"] else [])
  ++ [PrintNum hz_part; SetTextSize 1; SetCursor 108 16; Print "MHz"].

(** [drawStepIndicator()]; the [switch] has no default case. *)
Definition drawStepIndicator (s : State) : list DisplayOp :=
  [SetTextSize 1; SetCursor 0 35; Print "STEP: "]
  ++ (if step_size s =? STEP_10HZ then [Print "10 Hz"]
      else if step_size s =? STEP_100HZ then [Print "100 Hz"]
      else if step_size s =? STEP_1KHZ then [Print "1 kHz"]
      else if step_size s =? STEP_10KHZ then [Print "10 kHz"]
      else []).

(** [drawStatus()] *)
Definition drawStatus (s : State) : list DisplayOp :=
  [SetTextSize 2; SetCursor 0 48]
  ++ (if tx_mode s
      then [FillRect 0 46 32 18 SSD1306_WHITE; SetTextColor SSD1306_BLACK;
            Print "TX"; SetTextColor SSD1306_WHITE]
      else [DrawRect 0 46 32 18 SSD1306_WHITE; Print "RX"])
  ++ [SetTextSize 1; SetCursor 45 52; Print "LSB";
      SetCursor 70 52; Print "40m";
      SetCursor 100 52; Print "VFO"].

(** The body of [updateDisplay()]: the calls behind one [Render] entry of
    the trace. *)
Definition frame_ops (s : State) : list DisplayOp :=
  [ClearDisplay] ++ drawFrequency s ++ drawStepIndicator s ++ drawStatus s
  ++ [DisplayShow].

(** [Print::print] of an unsigned number: base 10, no leading zeros. *)
Definition decimal (n : Z) : string :=
  NilZero.string_of_uint (N.to_uint (Z.to_N n)).

(** The characters a list of display calls prints, in order. *)
Definition op_text (o : DisplayOp) : string :=
  match o with
  | Print msg => msg
  | PrintNum n => decimal n
  | _ => EmptyString
  end.

Definition printed_text (ops : list DisplayOp) : string :=
  fold_right (fun o acc => String.append (op_text o) acc) EmptyString ops.

(** The number a text spells when everything but its decimal digits is
    skipped. *)
Fixpoint read_digits (acc : Z) (t : string) : Z :=
  match t with
  | EmptyString => acc
  | String c t' =>
      let n := Z.of_nat (nat_of_ascii c) in
      if (48 <=? n) && (n <=? 57) then read_digits (acc * 10 + (n - 48)) t'
      else read_digits acc t'
  end.

(** The number of decimal digits in a text. *)
Fixpoint ndigits (t : string) : nat :=
  match t with
  | EmptyString => O
  | String c t' =>
      let n := Z.of_nat (nat_of_ascii c) in
      if (48 <=? n) && (n <=? 57) then S (ndigits t') else ndigits t'
  end.

(** The two zero-padded fields [drawFrequency()] prints: the kHz within the
    MHz on three places, the tens of Hz within the kHz on two. *)
Definition khz_text (k : Z) : string :=
  printed_text ((if k <? 100 then [Print "0"] else [])
                ++ (if k <? 10 then [Print "0"] else [])
                ++ [PrintNum k]).

Definition hz_text (h : Z) : string :=
  printed_text ((if h <? 10 then [Print "0"] else []) ++ [PrintNum h]).

(** A text of [width] characters, all digits, spelling [v]. *)
Definition field_ok (width : nat) (t : string) (v : Z) : bool :=
  (read_digits 0 t =? v) && Nat.eqb (ndigits t) width
  && Nat.eqb (String.length t) width.

(** Two states that agree on what [handlePTT()] reads and writes of the
    PTT line, and on what [handleEncoderSwitch()] reads and writes of the
    switch. *)
Definition same_ptt_line (a b : State) : Prop :=
  tx_mode a = tx_mode b /\ last_ptt_state a = last_ptt_state b /\
  last_ptt_time a = last_ptt_time b.

Definition same_switch_line (a b : State) : Prop :=
  step_index a = step_index b /\ last_sw_state a = last_sw_state b /\
  last_enc_sw_time a = last_enc_sw_time b.

(** ** Further views of the trace *)

(** The values commanded on the fixed (BFO) channel, in order. *)
Definition bfo_commands (tr : list Output) : list Z :=
  flat_map (fun o => match o with SetFreq v SI5351_CLK1 => [v] | _ => [] end) tr.

(** The values commanded on the spare channel, in order. *)
Definition clk2_commands (tr : list Output) : list Z :=
  flat_map (fun o => match o with SetFreq v SI5351_CLK2 => [v] | _ => [] end) tr.

(** The addresses written by [EEPROM.put] calls, in order. *)
Definition eeprom_writes (tr : list Output) : list (Z * list byte) :=
  flat_map (fun o => match o with EepromPut a bs => [(a, bs)] | _ => [] end) tr.

(** The addresses of the settings record: 0..3 frequency, 4 step index,
    8..9 magic word. *)
Definition in_record (a : Z) : bool :=
  ((0 <=? a) && (a <=? 4)) || ((8 <=? a) && (a <=? 9)).

(** The calls an iteration of [loop()] can make: a command on the tunable
    channel, a write to the transmit-enable pin, a write of one of the three
    objects of the settings record, a frame, serial output. *)
Definition loop_output (o : Output) : bool :=
  match o with
  | SetFreq _ SI5351_CLK0 => true
  | SetFreq _ _ => false
  | DigitalWrite p _ => p =? PIN_TX_EN
  | EepromPut a bs =>
      ((a =? EEPROM_FREQ_ADDR) && (Nat.eqb (length bs) 4))
      || ((a =? EEPROM_STEP_ADDR) && (Nat.eqb (length bs) 1))
      || ((a =? EEPROM_MAGIC_ADDR) && (Nat.eqb (length bs) 2))
  | _ => true
  end.

(** [n] levels, the first [b], each the opposite of the one before. *)
Fixpoint toggles (n : nat) (b : bool) : list bool :=
  match n with
  | O => []
  | S n' => b :: toggles n' (negb b)
  end.

(** Closes goals stating that a handler drew no frame, or sent no command
    to the tunable channel. *)
Ltac no_render :=
  unfold renders; simpl; rewrite ?flat_map_app; simpl; rewrite ?app_nil_r;
  reflexivity.
Ltac no_command :=
  unfold vfo_commands; simpl; rewrite ?flat_map_app; simpl; rewrite ?app_nil_r;
  reflexivity.

(** * Properties *)

(** ** The EEPROM library contract *)

Lemma EEPROM_write_bytes_outside bs : forall (e : gmap Z byte) a a',
  a' < a \/ a + Z.of_nat (length bs) <= a' ->
  EEPROM_write_bytes e a bs !! a' = e !! a'.
Proof.
  induction bs as [|b bs IH]; intros e a a' H; simpl; [reflexivity|].
  rewrite IH by (simpl in H; lia).
  apply lookup_insert_ne. simpl in H. lia.
Qed.

Lemma EEPROM_read_back bs : forall (e : gmap Z byte) a,
  List.map (fun i => EEPROM_read (EEPROM_write_bytes e a bs) (a + Z.of_nat i))
    (seq 0 (length bs)) = bs.
Proof.
  induction bs as [|b bs IH]; intros e a; simpl; [reflexivity|].
  f_equal.
  - unfold EEPROM_read. rewrite EEPROM_write_bytes_outside by lia.
    replace (a + Z.of_nat 0) with a by lia. now rewrite lookup_insert_eq.
  - rewrite <- seq_shift, List.map_map.
    rewrite <- (IH (<[a:=b]> e) (a + 1)) at 2.
    apply List.map_ext. intros i. f_equal. lia.
Qed.

Lemma EEPROM_get_put n (e : gmap Z byte) a v :
  EEPROM_get n (EEPROM_write_bytes e a (le_split n v)) a = v mod 2 ^ (Z.of_nat n * 8).
Proof.
  unfold EEPROM_get.
  rewrite <- (length_le_split n v) at 1.
  rewrite EEPROM_read_back. apply le_combine_split.
Qed.

Lemma EEPROM_get_put_other n m (e : gmap Z byte) a a' v :
  a' + Z.of_nat m <= a \/ a + Z.of_nat n <= a' ->
  EEPROM_get m (EEPROM_write_bytes e a (le_split n v)) a' = EEPROM_get m e a'.
Proof.
  intros H. unfold EEPROM_get. f_equal.
  apply List.map_ext_in. intros i Hi. apply in_seq in Hi.
  unfold EEPROM_read. rewrite EEPROM_write_bytes_outside; [reflexivity|].
  rewrite length_le_split. lia.
Qed.

(** ** Arithmetic helpers *)

Lemma wrap64_small x : 0 <= x < 2 ^ 64 -> wrap64 x = x.
Proof. intros H. unfold wrap64. now apply Z.mod_small. Qed.

Lemma in_u64_true x : in_u64 x = true <-> 0 <= x < 2 ^ 64.
Proof. unfold in_u64. rewrite andb_true_iff, Z.leb_le, Z.ltb_lt. tauto. Qed.

Lemma step_sizes_at_cases i :
  0 <= i < num_steps ->
  step_sizes_at i = 10 \/ step_sizes_at i = 100 \/
  step_sizes_at i = 1000 \/ step_sizes_at i = 10000.
Proof.
  unfold num_steps; simpl; intros H.
  assert (i = 0 \/ i = 1 \/ i = 2 \/ i = 3) as [-> | [-> | [-> | ->]]] by lia;
    compute; tauto.
Qed.

Lemma step_inv_cases s :
  step_inv s ->
  step_size s = 10 \/ step_size s = 100 \/ step_size s = 1000 \/ step_size s = 10000.
Proof. intros [Hi ->]. now apply step_sizes_at_cases. Qed.

Lemma step_inv_bounds s : step_inv s -> 10 <= step_size s <= 10000.
Proof. intros H. destruct (step_inv_cases s H) as [E | [E | [E | E]]]; lia. Qed.

(** ** The checked handlers compute what the plain ones compute *)

Lemma updateVFO_ck_value s : fst (updateVFO_ck s) = updateVFO s.
Proof. reflexivity. Qed.

Lemma handleEncoder_ck_value r s : fst (handleEncoder_ck r s) = handleEncoder r s.
Proof.
  unfold handleEncoder_ck, handleEncoder.
  destruct (r =? DIR_CW); simpl.
  - destruct (add64 (frequency s) (step_size s) <=? FREQ_MAX); reflexivity.
  - destruct (r =? DIR_CCW); simpl; [|reflexivity].
    destruct (frequency s >=? add64 (step_size s) FREQ_MIN); reflexivity.
Qed.

(** ** One encoder result *)

Lemma updateVFO_fields s :
  frequency (updateVFO s) = frequency s /\ step_size (updateVFO s) = step_size s /\
  step_index (updateVFO s) = step_index s /\ tx_mode (updateVFO s) = tx_mode s.
Proof. now destruct s. Qed.

Lemma updateVFO_trace s :
  trace (updateVFO s) =
  trace s ++ [SetFreq (mul64 (add64 (frequency s) IF_FREQ) 100) SI5351_CLK0;
              SerialPrint "VFO: ";
              SerialPrintNum (wrap32 (add64 (frequency s) IF_FREQ / 1000));
              SerialPrintln " kHz"].
Proof. destruct s; simpl. now rewrite <- !app_assoc. Qed.

Lemma updateVFO_exact s :
  0 <= frequency s -> (frequency s + IF_FREQ) * 100 < 2 ^ 64 ->
  snd (updateVFO_ck s) = true /\
  vfo_commands (trace (updateVFO s)) =
  vfo_commands (trace s) ++ [(frequency s + IF_FREQ) * 100].
Proof.
  intros H0 H1. unfold IF_FREQ in *.
  assert (Ha : add64 (frequency s) 9000000 = frequency s + 9000000)
    by (apply wrap64_small; lia).
  split.
  - unfold updateVFO_ck, ck_bind, add64_ck, mul64_ck, IF_FREQ; simpl.
    rewrite Ha.
    assert (in_u64 (frequency s + 9000000) = true) as -> by (apply in_u64_true; lia).
    assert (in_u64 ((frequency s + 9000000) * 100) = true) as ->
        by (apply in_u64_true; lia).
    reflexivity.
  - rewrite updateVFO_trace. unfold vfo_commands, IF_FREQ. rewrite flat_map_app. simpl.
    rewrite Ha. unfold mul64. rewrite wrap64_small by lia. reflexivity.
Qed.

Lemma handleEncoder_keeps r s :
  step_size (handleEncoder r s) = step_size s /\
  step_index (handleEncoder r s) = step_index s /\
  tx_mode (handleEncoder r s) = tx_mode s.
Proof.
  unfold handleEncoder.
  destruct (r =? DIR_CW).
  - destruct (add64 (frequency s) (step_size s) <=? FREQ_MAX); now destruct s.
  - destruct (r =? DIR_CCW); [|tauto].
    destruct (frequency s >=? add64 (step_size s) FREQ_MIN); now destruct s.
Qed.

(** Clockwise tick from a state of the data model. *)
Lemma handleEncoder_cw s :
  in_band (frequency s) -> step_inv s ->
  (frequency s + step_size s <= FREQ_MAX /\
   handleEncoder DIR_CW s =
   set_display_update_needed true
     (updateVFO (set_frequency (frequency s + step_size s) s))) \/
  (FREQ_MAX < frequency s + step_size s /\ handleEncoder DIR_CW s = s).
Proof.
  intros Hb Hs. apply step_inv_bounds in Hs. unfold in_band, FREQ_MIN, FREQ_MAX in *.
  unfold handleEncoder. simpl (DIR_CW =? DIR_CW).
  unfold add64. rewrite wrap64_small by lia. unfold FREQ_MAX.
  destruct (Z.leb_spec (frequency s + step_size s) 7200000); [left | right]; auto.
Qed.

(** Counter-clockwise tick from a state of the data model. *)
Lemma handleEncoder_ccw s :
  in_band (frequency s) -> step_inv s ->
  (FREQ_MIN <= frequency s - step_size s /\
   handleEncoder DIR_CCW s =
   set_display_update_needed true
     (updateVFO (set_frequency (frequency s - step_size s) s))) \/
  (frequency s - step_size s < FREQ_MIN /\ handleEncoder DIR_CCW s = s).
Proof.
  intros Hb Hs. apply step_inv_bounds in Hs. unfold in_band, FREQ_MIN, FREQ_MAX in *.
  unfold handleEncoder. simpl (DIR_CCW =? DIR_CW). simpl (DIR_CCW =? DIR_CCW).
  unfold add64, sub64, FREQ_MIN. rewrite !wrap64_small by lia.
  destruct (Z.geb_spec (frequency s) (step_size s + 7000000)); [left | right];
    split; auto; lia.
Qed.

Lemma handleEncoder_other r s :
  r <> DIR_CW -> r <> DIR_CCW -> handleEncoder r s = s.
Proof.
  intros H1 H2. unfold handleEncoder.
  destruct (Z.eqb_spec r DIR_CW); [contradiction|].
  destruct (Z.eqb_spec r DIR_CCW); [contradiction|]. reflexivity.
Qed.

Lemma frequency_after_update f s :
  frequency (set_display_update_needed true (updateVFO (set_frequency f s))) = f.
Proof. reflexivity. Qed.

(** The data-model invariant survives every encoder result. *)
Lemma handleEncoder_inv r s :
  in_band (frequency s) -> step_inv s ->
  in_band (frequency (handleEncoder r s)) /\ step_inv (handleEncoder r s).
Proof.
  intros Hb Hs. split.
  - destruct (Z.eq_dec r DIR_CW) as [-> | Hcw].
    { destruct (handleEncoder_cw s Hb Hs) as [[H ->] | [H ->]]; auto.
      rewrite frequency_after_update. apply step_inv_bounds in Hs.
      unfold in_band in *. lia. }
    destruct (Z.eq_dec r DIR_CCW) as [-> | Hccw].
    { destruct (handleEncoder_ccw s Hb Hs) as [[H ->] | [H ->]]; auto.
      rewrite frequency_after_update. apply step_inv_bounds in Hs.
      unfold in_band in *. lia. }
    now rewrite handleEncoder_other.
  - destruct (handleEncoder_keeps r s) as (E1 & E2 & _).
    unfold step_inv. rewrite E1, E2. exact Hs.
Qed.

Lemma tune_snoc results r s :
  tune (results ++ [r]) s = handleEncoder r (tune results s).
Proof. unfold tune. now rewrite fold_left_app. Qed.

Lemma tune_inv results : forall s,
  in_band (frequency s) -> step_inv s ->
  in_band (frequency (tune results s)) /\ step_inv (tune results s).
Proof.
  induction results as [|r results IH]; intros s Hb Hs; [now split|].
  simpl. destruct (handleEncoder_inv r s Hb Hs) as [Hb' Hs']. now apply IH.
Qed.

(** No 64-bit operation of the handler wraps in a state of the data model. *)
Lemma handleEncoder_exact r s :
  in_band (frequency s) -> step_inv s -> snd (handleEncoder_ck r s) = true.
Proof.
  intros Hb Hs. apply step_inv_bounds in Hs.
  unfold in_band, FREQ_MIN, FREQ_MAX in *.
  assert (Hu : forall f, 0 <= f <= 7200000 -> snd (updateVFO_ck (set_frequency f s)) = true).
  { intros f Hf. apply updateVFO_exact; simpl; unfold IF_FREQ; lia. }
  unfold handleEncoder_ck.
  destruct (r =? DIR_CW).
  - unfold ck_bind, add64_ck. cbn [fst snd].
    unfold add64. rewrite wrap64_small by lia.
    assert (in_u64 (frequency s + step_size s) = true) as -> by (apply in_u64_true; lia).
    unfold FREQ_MAX.
    destruct (Z.leb_spec (frequency s + step_size s) 7200000); cbn [fst snd]; auto.
    rewrite Hu by lia. reflexivity.
  - destruct (r =? DIR_CCW); [|reflexivity].
    unfold ck_bind, add64_ck, sub64_ck. cbn [fst snd].
    unfold add64, sub64, FREQ_MIN. rewrite !wrap64_small by lia.
    assert (in_u64 (step_size s + 7000000) = true) as -> by (apply in_u64_true; lia).
    destruct (Z.geb_spec (frequency s) (step_size s + 7000000)); cbn [fst snd]; auto.
    assert (in_u64 (frequency s - step_size s) = true) as -> by (apply in_u64_true; lia).
    rewrite Hu by lia. reflexivity.
Qed.

(** ** Tuning stays inside the band *)

(** C1. Starting from a tuning state whose frequency is in
    [FREQ_MIN, FREQ_MAX] (and whose step size is the table entry selected by
    its step index), after every event of every sequence of encoder results
    the frequency is still in [FREQ_MIN, FREQ_MAX]; a clockwise tick adds
    exactly the current step size when the sum does not exceed FREQ_MAX and
    changes nothing otherwise, a counter-clockwise tick subtracts exactly the
    current step size when the difference is not below FREQ_MIN and changes
    nothing otherwise; the new frequency is the mathematical sum or
    difference (no wrap-around), no 64-bit operation of the handler wraps,
    and the handler always returns a state (it has no error result). *)
Theorem tuning_stays_in_band (s : State) (results : list Z) (r : Z) :
  in_band (frequency s) -> step_inv s ->
  let s1 := tune results s in
  let s2 := tune (results ++ [r]) s in
  in_band (frequency s1) /\ in_band (frequency s2) /\
  step_size s2 = step_size s1 /\
  (r = DIR_CW ->
   (frequency s1 + step_size s1 <= FREQ_MAX /\
    frequency s2 = frequency s1 + step_size s1) \/
   (FREQ_MAX < frequency s1 + step_size s1 /\ frequency s2 = frequency s1)) /\
  (r = DIR_CCW ->
   (FREQ_MIN <= frequency s1 - step_size s1 /\
    frequency s2 = frequency s1 - step_size s1) \/
   (frequency s1 - step_size s1 < FREQ_MIN /\ frequency s2 = frequency s1)) /\
  (r <> DIR_CW -> r <> DIR_CCW -> s2 = s1) /\
  snd (handleEncoder_ck r s1) = true.
Proof.
  intros Hb Hs s1 s2.
  destruct (tune_inv results s Hb Hs) as [Hb1 Hs1]. fold s1 in Hb1, Hs1.
  assert (E : s2 = handleEncoder r s1) by apply tune_snoc.
  destruct (handleEncoder_inv r s1 Hb1 Hs1) as [Hb2 _].
  destruct (handleEncoder_keeps r s1) as (Hk & _).
  rewrite E.
  split; [exact Hb1|]. split; [exact Hb2|]. split; [exact Hk|].
  split; [|split; [|split]].
  - intros ->. destruct (handleEncoder_cw s1 Hb1 Hs1) as [[H ->] | [H ->]];
      [left | right]; split; auto.
  - intros ->. destruct (handleEncoder_ccw s1 Hb1 Hs1) as [[H ->] | [H ->]];
      [left | right]; split; auto.
  - apply handleEncoder_other.
  - now apply handleEncoder_exact.
Qed.

Lemma power_on_inv e : in_band (frequency (power_on e)) /\ step_inv (power_on e).
Proof.
  unfold in_band, step_inv, FREQ_MIN, FREQ_MAX, num_steps; simpl.
  unfold FREQ_DEFAULT. repeat split; lia.
Qed.

Lemma tuning_stays_in_band_witness :
  let s1 := tune [DIR_CW; DIR_CCW; DIR_CCW] (power_on ∅) in
  let s2 := tune ([DIR_CW; DIR_CCW; DIR_CCW] ++ [DIR_CW]) (power_on ∅) in
  in_band (frequency s1) /\ in_band (frequency s2) /\
  step_size s2 = step_size s1 /\
  (DIR_CW = DIR_CW ->
   (frequency s1 + step_size s1 <= FREQ_MAX /\
    frequency s2 = frequency s1 + step_size s1) \/
   (FREQ_MAX < frequency s1 + step_size s1 /\ frequency s2 = frequency s1)) /\
  (DIR_CW = DIR_CCW ->
   (FREQ_MIN <= frequency s1 - step_size s1 /\
    frequency s2 = frequency s1 - step_size s1) \/
   (frequency s1 - step_size s1 < FREQ_MIN /\ frequency s2 = frequency s1)) /\
  (DIR_CW <> DIR_CW -> DIR_CW <> DIR_CCW -> s2 = s1) /\
  snd (handleEncoder_ck DIR_CW s1) = true.
Proof.
  apply (tuning_stays_in_band (power_on ∅) [DIR_CW; DIR_CCW; DIR_CCW] DIR_CW).
  - unfold in_band; simpl; vm_compute; split; discriminate.
  - unfold step_inv; simpl; vm_compute; repeat split; discriminate.
Defined.

(** ** The counter-clockwise guard *)


(** ** The step change *)

Lemma saveSettings_fields s :
  frequency (saveSettings s) = frequency s /\
  step_index (saveSettings s) = step_index s /\
  step_size (saveSettings s) = step_size s /\
  tx_mode (saveSettings s) = tx_mode s.
Proof. now destruct s. Qed.

Lemma saveSettings_trace s :
  trace (saveSettings s) =
  trace s ++ [EepromPut EEPROM_FREQ_ADDR (le_split 4 (wrap32 (frequency s)));
              EepromPut EEPROM_STEP_ADDR (le_split 1 (step_index s));
              EepromPut EEPROM_MAGIC_ADDR (le_split 2 (wrap16 EEPROM_MAGIC_VALUE))].
Proof. destruct s; simpl. now rewrite <- !app_assoc. Qed.

Lemma stepCycle_step_index t s :
  step_index (stepCycle t s) = (step_index s + 1) mod num_steps.
Proof.
  destruct s; simpl. unfold wrap8.
  apply Z.mod_small.
  assert (0 <= (step_index0 + 1) mod num_steps < num_steps)
    by (apply Z.mod_pos_bound; reflexivity).
  unfold num_steps in *; simpl in *. lia.
Qed.

Lemma stepCycle_step_size t s :
  step_size (stepCycle t s) = step_sizes_at (step_index (stepCycle t s)).
Proof. now destruct s. Qed.

(** The table is indexed below its length. *)
Lemma stepCycle_index_in_range t s : 0 <= step_index (stepCycle t s) < num_steps.
Proof. rewrite stepCycle_step_index. apply Z.mod_pos_bound. reflexivity. Qed.

Lemma stepCycle_step_inv t s : step_inv (stepCycle t s).
Proof. split; [apply stepCycle_index_in_range | apply stepCycle_step_size]. Qed.

Lemma stepCycle_keeps t s :
  frequency (stepCycle t s) = frequency s /\ tx_mode (stepCycle t s) = tx_mode s /\
  last_ptt_state (stepCycle t s) = last_ptt_state s /\
  last_ptt_time (stepCycle t s) = last_ptt_time s.
Proof. now destruct s. Qed.

Lemma stepCycle_marks_dirty t s : display_update_needed (stepCycle t s) = true.
Proof. destruct s; reflexivity. Qed.

Lemma stepCycle_trace t s :
  trace (stepCycle t s) =
  trace s ++ [EepromPut EEPROM_FREQ_ADDR (le_split 4 (wrap32 (frequency s)));
              EepromPut EEPROM_STEP_ADDR (le_split 1 (step_index (stepCycle t s)));
              EepromPut EEPROM_MAGIC_ADDR (le_split 2 (wrap16 EEPROM_MAGIC_VALUE));
              SerialPrint "Step: ";
              SerialPrintNum (wrap32 (step_size (stepCycle t s)))].
Proof. destruct s; simpl. now rewrite <- !app_assoc. Qed.

Lemma stepCycle_saves t s : saves (trace (stepCycle t s)) = S (saves (trace s)).
Proof.
  rewrite stepCycle_trace. unfold saves.
  rewrite List.filter_app, length_app. simpl. lia.
Qed.

Lemma stepCycles_snoc times t s :
  stepCycles (times ++ [t]) s = stepCycle t (stepCycles times s).
Proof. unfold stepCycles. now rewrite fold_left_app. Qed.

(** C8. The step change sets step_index to (step_index + 1) mod 4 and
    step_size to the table entry at the new index.  After each application
    the index is below the table length and the step size is the entry it
    selects; from an index below the table length, exactly 4 applications
    bring the index back to where it started, and the step size to the
    entry at that index (the original step size, when it was that entry). *)
Theorem step_cycle_is_cyclic (s : State) (times : list Z) (t : Z) :
  0 <= step_index s < num_steps ->
  num_steps = 4 /\
  step_index (stepCycle t s) = (step_index s + 1) mod num_steps /\
  step_size (stepCycle t s) = step_sizes_at (step_index (stepCycle t s)) /\
  step_inv (stepCycles (times ++ [t]) s) /\
  (length times = 4%nat ->
   step_index (stepCycles times s) = step_index s /\
   step_size (stepCycles times s) = step_sizes_at (step_index s) /\
   (step_inv s -> step_size (stepCycles times s) = step_size s)).
Proof.
  intros Hi.
  split; [reflexivity|]. split; [apply stepCycle_step_index|].
  split; [apply stepCycle_step_size|].
  split; [rewrite stepCycles_snoc; apply stepCycle_step_inv|].
  intros Hlen.
  destruct times as [|t1 [|t2 [|t3 [|t4 [|? ?]]]]]; try discriminate Hlen.
  assert (E : step_index (stepCycles [t1; t2; t3; t4] s) = step_index s).
  { unfold stepCycles; cbn [fold_left]. rewrite !stepCycle_step_index.
    unfold num_steps in *; simpl in *.
    assert (step_index s = 0 \/ step_index s = 1 \/ step_index s = 2 \/ step_index s = 3)
      as [-> | [-> | [-> | ->]]] by lia; reflexivity. }
  assert (E2 : step_size (stepCycles [t1; t2; t3; t4] s) = step_sizes_at (step_index s)).
  { rewrite <- E. change (stepCycles [t1; t2; t3; t4] s)
      with (stepCycle t4 (stepCycles [t1; t2; t3] s)).
    apply stepCycle_step_size. }
  split; [exact E|]. split; [exact E2|].
  intros [_ Hs]. now rewrite Hs.
Qed.

Lemma step_cycle_is_cyclic_witness :
  num_steps = 4 /\
  step_index (stepCycle 100 (power_on ∅)) = (step_index (power_on ∅) + 1) mod num_steps /\
  step_size (stepCycle 100 (power_on ∅)) =
  step_sizes_at (step_index (stepCycle 100 (power_on ∅))) /\
  step_inv (stepCycles ([100; 300; 500; 700] ++ [100]) (power_on ∅)) /\
  (length [100; 300; 500; 700] = 4%nat ->
   step_index (stepCycles [100; 300; 500; 700] (power_on ∅)) = step_index (power_on ∅) /\
   step_size (stepCycles [100; 300; 500; 700] (power_on ∅)) =
   step_sizes_at (step_index (power_on ∅)) /\
   (step_inv (power_on ∅) ->
    step_size (stepCycles [100; 300; 500; 700] (power_on ∅)) = step_size (power_on ∅))).
Proof.
  apply (step_cycle_is_cyclic (power_on ∅) [100; 300; 500; 700] 100).
  unfold num_steps; simpl; lia.
Defined.

(** ** Debouncing *)

Lemma set_last_sw_state_same s : set_last_sw_state (last_sw_state s) s = s.
Proof. now destruct s. Qed.

Lemma set_last_ptt_state_same s : set_last_ptt_state (last_ptt_state s) s = s.
Proof. now destruct s. Qed.

Lemma Zgtb_false_le a b : a <= b -> (a >? b) = false.
Proof. intros H. rewrite Z.gtb_ltb. now apply Z.ltb_ge. Qed.

Lemma Zgtb_true_gt a b : a > b -> (a >? b) = true.
Proof. intros H. rewrite Z.gtb_ltb. apply Z.ltb_lt. lia. Qed.

(** The 32-bit difference of two [millis()] readings is the time that passed
    between them, as long as that is less than 2^32 ms, also across the
    wrap-around of the counter. *)
Lemma sub32_elapsed t d :
  0 <= d < 2 ^ 32 -> sub32 (wrap32 (t + d)) (wrap32 t) = d.
Proof.
  intros H. unfold sub32, wrap32.
  rewrite <- Zminus_mod. replace (t + d - t) with d by lia.
  now apply Z.mod_small.
Qed.

(** Inside the window the switch handler only remembers the level. *)
Lemma handleEncoderSwitch_in_window i s :
  sub32 (t_check i) (last_enc_sw_time s) <= debounce_delay ->
  handleEncoderSwitch i s = set_last_sw_state (level i) s.
Proof.
  intros H. unfold handleEncoderSwitch. rewrite (Zgtb_false_le _ _ H).
  now destruct (eqb (level i) LOW && eqb (last_sw_state s) HIGH).
Qed.

(** An accepted press. *)
Lemma handleEncoderSwitch_press i s :
  level i = LOW -> last_sw_state s = HIGH ->
  sub32 (t_check i) (last_enc_sw_time s) > debounce_delay ->
  handleEncoderSwitch i s = set_last_sw_state LOW (stepCycle (t_store i) s).
Proof.
  intros Hl Hs H. unfold handleEncoderSwitch.
  rewrite Hl, Hs, (Zgtb_true_gt _ _ H). reflexivity.
Qed.

(** Inside the window the PTT handler only remembers the level. *)
Lemma handlePTT_in_window i s :
  sub32 (t_check i) (last_ptt_time s) <= debounce_delay ->
  handlePTT i s = set_last_ptt_state (level i) s.
Proof.
  intros H. unfold handlePTT. rewrite (Zgtb_false_le _ _ H).
  destruct (eqb_spec (level i) (last_ptt_state s)) as [-> | Hne]; simpl.
  - symmetry. apply set_last_ptt_state_same.
  - reflexivity.
Qed.

(** Without a level change the PTT handler does nothing. *)
Lemma handlePTT_same_level i s :
  level i = last_ptt_state s -> handlePTT i s = s.
Proof.
  intros H. unfold handlePTT. rewrite H, eqb_reflx. reflexivity.
Qed.

Lemma set_last_sw_state_fields a s :
  step_index (set_last_sw_state a s) = step_index s /\
  trace (set_last_sw_state a s) = trace s.
Proof. split; reflexivity. Qed.

Lemma set_last_sw_state_tuning a s :
  frequency (set_last_sw_state a s) = frequency s /\
  step_size (set_last_sw_state a s) = step_size s /\
  display_update_needed (set_last_sw_state a s) = display_update_needed s /\
  tx_mode (set_last_sw_state a s) = tx_mode s.
Proof. repeat split. Qed.

Lemma set_last_sw_state_twice a b s :
  set_last_sw_state a (set_last_sw_state b s) = set_last_sw_state a s.
Proof. reflexivity. Qed.

Lemma last_cons_default {A} (l : list A) : forall a d,
  List.last (a :: l) d = List.last l a.
Proof.
  induction l as [|x l IH]; intros a d; [reflexivity|].
  change (List.last (a :: x :: l) d) with (List.last (x :: l) d).
  now rewrite !IH.
Qed.

Lemma sw_samples_in_window bounce : forall s,
  Forall (fun b => sub32 (t_check b) (last_enc_sw_time s) <= debounce_delay) bounce ->
  sw_samples bounce s =
  set_last_sw_state (List.last (List.map level bounce) (last_sw_state s)) s.
Proof.
  induction bounce as [|b bounce IH]; intros s H.
  - simpl. symmetry. apply set_last_sw_state_same.
  - inversion H as [|? ? Hb Hrest]; subst.
    change (sw_samples (b :: bounce) s)
      with (sw_samples bounce (handleEncoderSwitch b s)).
    rewrite (handleEncoderSwitch_in_window b s Hb).
    rewrite IH by exact Hrest.
    rewrite set_last_sw_state_twice.
    change (List.map level (b :: bounce)) with (level b :: List.map level bounce).
    now rewrite last_cons_default.
Qed.

(** C6. Both debounced lines: a sample taken while the time elapsed since
    the last accepted transition of its line (computed as the sketch
    computes it, in 32-bit unsigned arithmetic, which gives the true elapsed
    time up to 2^32 ms) is not more than 50 ms has no effect beyond the
    remembered level, so a transition is accepted only after more than
    50 ms.  For the encoder switch: after an accepted press,
    any samples taken within the window of that press (a release and a
    second press among them) change nothing but the remembered level: the
    step index has advanced once and the settings were saved once. *)
Theorem debounce_window (s : State) (press : Sample) (bounce : list Sample) :
  last_sw_state s = HIGH -> level press = LOW ->
  sub32 (t_check press) (last_enc_sw_time s) > debounce_delay ->
  Forall (fun b => sub32 (t_check b) (t_store press) <= debounce_delay) bounce ->
  let s1 := handleEncoderSwitch press s in
  let s2 := sw_samples bounce s1 in
  debounce_delay = 50 /\
  (forall t d, 0 <= d < 2 ^ 32 -> sub32 (wrap32 (t + d)) (wrap32 t) = d) /\
  (forall i t, sub32 (t_check i) (last_ptt_time t) <= debounce_delay ->
               handlePTT i t = set_last_ptt_state (level i) t) /\
  (forall i t, sub32 (t_check i) (last_enc_sw_time t) <= debounce_delay ->
               handleEncoderSwitch i t = set_last_sw_state (level i) t) /\
  s1 = set_last_sw_state LOW (stepCycle (t_store press) s) /\
  s2 = set_last_sw_state (List.last (List.map level bounce) LOW) s1 /\
  step_index s2 = (step_index s + 1) mod num_steps /\
  saves (trace s2) = S (saves (trace s)).
Proof.
  intros Hs Hl Hacc Hb s1 s2.
  split; [reflexivity|].
  split; [exact sub32_elapsed|].
  split; [exact handlePTT_in_window|].
  split; [exact handleEncoderSwitch_in_window|].
  assert (E1 : s1 = set_last_sw_state LOW (stepCycle (t_store press) s))
    by (apply handleEncoderSwitch_press; assumption).
  assert (E2 : s2 = set_last_sw_state (List.last (List.map level bounce) LOW) s1).
  { assert (Hlvl : last_sw_state s1 = LOW) by (rewrite E1; reflexivity).
    assert (Htime : last_enc_sw_time s1 = t_store press)
      by (rewrite E1; destruct s; reflexivity).
    unfold s2. rewrite sw_samples_in_window.
    - rewrite Hlvl. reflexivity.
    - rewrite Htime. exact Hb. }
  split; [exact E1|]. split; [exact E2|].
  rewrite E2.
  destruct (set_last_sw_state_fields (List.last (List.map level bounce) LOW) s1)
    as [-> ->].
  rewrite E1.
  destruct (set_last_sw_state_fields LOW (stepCycle (t_store press) s)) as [-> ->].
  split; [apply stepCycle_step_index | apply stepCycle_saves].
Qed.

Lemma debounce_window_witness :
  let press := mkSample LOW 100 100 in
  let bounce := [mkSample HIGH 110 110; mkSample LOW 130 131] in
  let s1 := handleEncoderSwitch press (power_on ∅) in
  let s2 := sw_samples bounce s1 in
  step_index s2 = 3 /\ saves (trace s2) = 1%nat /\
  s2 = set_last_sw_state LOW s1.
Proof.
  intros press bounce s1 s2.
  destruct (debounce_window (power_on ∅) press bounce)
    as (_ & _ & _ & _ & _ & E & Hi & Hn).
  - reflexivity.
  - reflexivity.
  - vm_compute. reflexivity.
  - repeat constructor; vm_compute; discriminate.
  - split; [exact Hi|]. split; [exact Hn|]. exact E.
Defined.

(** ** Push-to-talk *)

(** An accepted PTT transition towards the mode already held changes only
    the time stamp and the remembered level. *)
Lemma handlePTT_keeps_when_asserted i s :
  tx_mode s = true -> level i = LOW ->
  tx_mode (handlePTT i s) = true /\
  trace (handlePTT i s) = trace s /\
  display_update_needed (handlePTT i s) = display_update_needed s.
Proof.
  intros Htx Hl. unfold handlePTT. rewrite Hl.
  destruct (negb (eqb LOW (last_ptt_state s))); [|now rewrite Htx].
  destruct (sub32 (t_check i) (last_ptt_time s) >? debounce_delay).
  - cbn [tx_mode set_last_ptt_time]. rewrite Htx. cbn. now rewrite Htx.
  - cbn. now rewrite Htx.
Qed.

(** An accepted assert while receiving. *)
Lemma handlePTT_assert i s :
  tx_mode s = false -> last_ptt_state s = HIGH -> level i = LOW ->
  sub32 (t_check i) (last_ptt_time s) > debounce_delay ->
  handlePTT i s =
  set_last_ptt_state LOW
    (emit (SerialPrintln "TX")
       (set_display_update_needed true
          (emit (DigitalWrite PIN_TX_EN HIGH)
             (set_tx_mode true (set_last_ptt_time (t_store i) s))))).
Proof.
  intros Htx Hs Hl H. unfold handlePTT.
  rewrite Hl, Hs, (Zgtb_true_gt _ _ H). cbn [negb eqb LOW HIGH].
  cbn [tx_mode set_last_ptt_time]. rewrite Htx. reflexivity.
Qed.

(** An accepted transition with the mode already as asked. *)
Lemma handlePTT_accept_same_mode i s :
  level i <> last_ptt_state s ->
  sub32 (t_check i) (last_ptt_time s) > debounce_delay ->
  tx_mode s = eqb (level i) LOW ->
  handlePTT i s = set_last_ptt_state (level i) (set_last_ptt_time (t_store i) s).
Proof.
  intros Hne H Htx. unfold handlePTT.
  destruct (eqb_spec (level i) (last_ptt_state s)) as [E | _]; [contradiction|].
  rewrite (Zgtb_true_gt _ _ H). cbn [negb tx_mode set_last_ptt_time].
  rewrite Htx, eqb_reflx. reflexivity.
Qed.

(** C7. An assert of the PTT line handled while tx_mode is already true
    leaves tx_mode, the trace of output calls and the dirty flag as they
    were.  From receive, an accepted assert, a release rejected by the
    debounce window and a second accepted assert give one write of HIGH to
    the transmit-enable pin and one change of tx_mode: the second assert is
    accepted (its time is stored) and does nothing else. *)
Theorem ptt_assert_idempotent (s : State) (a1 b a2 : Sample) :
  tx_mode s = false -> last_ptt_state s = HIGH ->
  level a1 = LOW -> sub32 (t_check a1) (last_ptt_time s) > debounce_delay ->
  level b = HIGH -> sub32 (t_check b) (t_store a1) <= debounce_delay ->
  level a2 = LOW -> sub32 (t_check a2) (t_store a1) > debounce_delay ->
  let s1 := handlePTT a1 s in
  let s2 := handlePTT b s1 in
  let s3 := handlePTT a2 s2 in
  (forall i t, tx_mode t = true -> level i = LOW ->
     tx_mode (handlePTT i t) = true /\
     trace (handlePTT i t) = trace t /\
     display_update_needed (handlePTT i t) = display_update_needed t) /\
  tx_mode s1 = true /\
  trace s1 = trace s ++ [DigitalWrite PIN_TX_EN HIGH; SerialPrintln "TX"] /\
  s2 = set_last_ptt_state HIGH s1 /\
  s3 = set_last_ptt_state LOW (set_last_ptt_time (t_store a2) s1) /\
  tx_mode s3 = true /\ trace s3 = trace s1 /\
  display_update_needed s3 = display_update_needed s1 /\
  tx_enable_writes (trace s3) = tx_enable_writes (trace s) ++ [HIGH].
Proof.
  intros Htx Hs Hl1 H1 Hlb Hb Hl2 H2 s1 s2 s3.
  split; [exact handlePTT_keeps_when_asserted|].
  assert (E1 : s1 = set_last_ptt_state LOW
                 (emit (SerialPrintln "TX")
                    (set_display_update_needed true
                       (emit (DigitalWrite PIN_TX_EN HIGH)
                          (set_tx_mode true (set_last_ptt_time (t_store a1) s))))))
    by (apply handlePTT_assert; assumption).
  assert (Htx1 : tx_mode s1 = true) by (rewrite E1; reflexivity).
  assert (Htr1 : trace s1 = trace s ++ [DigitalWrite PIN_TX_EN HIGH; SerialPrintln "TX"]).
  { rewrite E1. destruct s; simpl. now rewrite <- app_assoc. }
  assert (Ht1 : last_ptt_time s1 = t_store a1) by (rewrite E1; reflexivity).
  assert (E2 : s2 = set_last_ptt_state HIGH s1).
  { unfold s2. rewrite <- Hlb. apply handlePTT_in_window. now rewrite Ht1. }
  assert (E3 : s3 = set_last_ptt_state LOW (set_last_ptt_time (t_store a2) s1)).
  { unfold s3. rewrite (handlePTT_accept_same_mode a2 s2).
    - rewrite Hl2, E2. reflexivity.
    - rewrite Hl2, E2. discriminate.
    - rewrite E2. cbn [last_ptt_time set_last_ptt_state]. now rewrite Ht1.
    - rewrite Hl2, E2. exact Htx1. }
  split; [exact Htx1|]. split; [exact Htr1|]. split; [exact E2|]. split; [exact E3|].
  assert (Htr3 : trace s3 = trace s1) by (rewrite E3; reflexivity).
  split; [rewrite E3; exact Htx1|]. split; [exact Htr3|].
  split; [rewrite E3; reflexivity|].
  rewrite Htr3, Htr1. unfold tx_enable_writes. rewrite flat_map_app. reflexivity.
Qed.

Lemma ptt_assert_idempotent_witness :
  let s1 := handlePTT (mkSample LOW 100 100) (power_on ∅) in
  let s3 := handlePTT (mkSample LOW 200 200) (handlePTT (mkSample HIGH 120 120) s1) in
  tx_mode s3 = true /\ trace s3 = trace s1 /\
  tx_enable_writes (trace s3) = [HIGH].
Proof.
  intros s1 s3.
  destruct (ptt_assert_idempotent (power_on ∅) (mkSample LOW 100 100)
              (mkSample HIGH 120 120) (mkSample LOW 200 200))
    as (_ & _ & _ & _ & _ & Htx & Htr & _ & Hw);
    try reflexivity; try (vm_compute; congruence).
  split; [exact Htx|]. split; [exact Htr|]. exact Hw.
Defined.

Lemma ptt_samples_same_level later : forall s,
  Forall (fun j => level j = last_ptt_state s) later ->
  ptt_samples later s = s.
Proof.
  induction later as [|j later IH]; intros s H; [reflexivity|].
  inversion H as [|? ? Hj Hrest]; subst.
  change (ptt_samples (j :: later) s) with (ptt_samples later (handlePTT j s)).
  rewrite (handlePTT_same_level j s Hj). now apply IH.
Qed.

(** C9. A PTT level change sampled within the debounce window of the last
    accepted transition is not acted upon, yet the handler remembers the new
    level.  While the line then stays at that level, no later sample is a
    level change, whatever its time: the transition never produces its
    event.  A release within 50 ms of the assert leaves tx_mode true and the
    transmit-enable pin untouched for as long as the line stays released. *)
Theorem ptt_rejected_transition_is_lost (s : State) (i : Sample) (later : list Sample) :
  level i <> last_ptt_state s ->
  sub32 (t_check i) (last_ptt_time s) <= debounce_delay ->
  Forall (fun j => level j = level i) later ->
  let s' := ptt_samples (i :: later) s in
  handlePTT i s = set_last_ptt_state (level i) s /\
  s' = set_last_ptt_state (level i) s /\
  tx_mode s' = tx_mode s /\ trace s' = trace s /\
  display_update_needed s' = display_update_needed s /\
  last_ptt_time s' = last_ptt_time s /\
  (tx_mode s = true -> level i = HIGH ->
   tx_mode s' = true /\ tx_enable_writes (trace s') = tx_enable_writes (trace s)).
Proof.
  intros Hne Hw Hlater s'.
  pose proof (handlePTT_in_window i s Hw) as E.
  assert (E' : s' = set_last_ptt_state (level i) s).
  { unfold s'.
    change (ptt_samples (i :: later) s) with (ptt_samples later (handlePTT i s)).
    rewrite E. apply ptt_samples_same_level. exact Hlater. }
  split; [exact E|]. split; [exact E'|].
  rewrite E'.
  split; [reflexivity|]. split; [reflexivity|]. split; [reflexivity|].
  split; [reflexivity|].
  intros Htx _. split; [exact Htx | reflexivity].
Qed.

Lemma ptt_rejected_transition_is_lost_witness :
  let s := handlePTT (mkSample LOW 100 100) (power_on ∅) in
  let s' := ptt_samples [mkSample HIGH 130 130; mkSample HIGH 500 500;
                         mkSample HIGH 90000 90000] s in
  tx_mode s = true /\ tx_mode s' = true /\
  tx_enable_writes (trace s') = [HIGH].
Proof.
  intros s s'.
  destruct (ptt_rejected_transition_is_lost s (mkSample HIGH 130 130)
              [mkSample HIGH 500 500; mkSample HIGH 90000 90000])
    as (_ & _ & _ & _ & _ & _ & H).
  - vm_compute. discriminate.
  - vm_compute. discriminate.
  - repeat constructor.
  - split; [reflexivity|]. destruct H as [H1 H2]; [reflexivity | reflexivity |].
    split; [exact H1 | exact H2].
Defined.

(** ** Settings in the EEPROM *)

Lemma EEPROM_get_bound n (e : gmap Z byte) a :
  0 <= EEPROM_get n e a < 2 ^ (8 * Z.of_nat n).
Proof.
  unfold EEPROM_get.
  pose proof (le_combine_bound
                (List.map (fun i => EEPROM_read e (a + Z.of_nat i)) (seq 0 n))) as H.
  now rewrite length_map, length_seq in H.
Qed.

Lemma saveSettings_eeprom s :
  eeprom (saveSettings s) =
  EEPROM_write_bytes
    (EEPROM_write_bytes
       (EEPROM_write_bytes (eeprom s) EEPROM_FREQ_ADDR (le_split 4 (wrap32 (frequency s))))
       EEPROM_STEP_ADDR (le_split 1 (step_index s)))
    EEPROM_MAGIC_ADDR (le_split 2 (wrap16 EEPROM_MAGIC_VALUE)).
Proof. now destruct s. Qed.

(** The three objects read back after [saveSettings()]. *)
Lemma saveSettings_read_back s :
  EEPROM_get 2 (eeprom (saveSettings s)) EEPROM_MAGIC_ADDR = EEPROM_MAGIC_VALUE /\
  EEPROM_get 4 (eeprom (saveSettings s)) EEPROM_FREQ_ADDR = frequency s mod 2 ^ 32 /\
  EEPROM_get 1 (eeprom (saveSettings s)) EEPROM_STEP_ADDR = step_index s mod 2 ^ 8.
Proof.
  rewrite saveSettings_eeprom.
  unfold EEPROM_MAGIC_ADDR, EEPROM_FREQ_ADDR, EEPROM_STEP_ADDR.
  split; [|split].
  - rewrite EEPROM_get_put. reflexivity.
  - rewrite !EEPROM_get_put_other by (simpl; lia).
    rewrite EEPROM_get_put. unfold wrap32.
    change (2 ^ (Z.of_nat 4 * 8)) with (2 ^ 32). apply Z.mod_mod. discriminate.
  - rewrite EEPROM_get_put_other by (simpl; lia).
    rewrite EEPROM_get_put. reflexivity.
Qed.

(** [loadSettings()] when the magic word is not the sentinel. *)
Lemma loadSettings_reject s :
  EEPROM_get 2 (eeprom s) EEPROM_MAGIC_ADDR <> EEPROM_MAGIC_VALUE ->
  loadSettings s = emit (SerialPrintln "Using default settings") s.
Proof.
  intros H. unfold loadSettings.
  destruct (Z.eqb_spec (EEPROM_get 2 (eeprom s) EEPROM_MAGIC_ADDR) EEPROM_MAGIC_VALUE);
    [contradiction | reflexivity].
Qed.

(** [loadSettings()] when the magic word is the sentinel: each field is
    checked on its own. *)
Lemma loadSettings_accept s :
  EEPROM_get 2 (eeprom s) EEPROM_MAGIC_ADDR = EEPROM_MAGIC_VALUE ->
  let saved_freq := EEPROM_get 4 (eeprom s) EEPROM_FREQ_ADDR in
  let saved_step := EEPROM_get 1 (eeprom s) EEPROM_STEP_ADDR in
  frequency (loadSettings s) =
    (if (saved_freq >=? FREQ_MIN) && (saved_freq <=? FREQ_MAX)
     then saved_freq else frequency s) /\
  step_index (loadSettings s) = (if saved_step >=? num_steps then 2 else saved_step) /\
  step_size (loadSettings s) = step_sizes_at (step_index (loadSettings s)) /\
  tx_mode (loadSettings s) = tx_mode s /\
  eeprom (loadSettings s) = eeprom s.
Proof.
  intros H saved_freq saved_step. unfold loadSettings. rewrite H, Z.eqb_refl.
  fold saved_freq.
  destruct ((saved_freq >=? FREQ_MIN) && (saved_freq <=? FREQ_MAX)) eqn:Ef;
    cbn [step_index set_step_index set_frequency eeprom]; fold saved_step;
    destruct (saved_step >=? num_steps); repeat split.
Qed.

(** After [loadSettings()] the table is indexed below its length and the
    data-model invariant holds, whatever the EEPROM holds. *)
Lemma loadSettings_step_inv s :
  in_band (frequency s) -> step_inv s ->
  in_band (frequency (loadSettings s)) /\ step_inv (loadSettings s).
Proof.
  intros Hb Hs.
  destruct (Z.eq_dec (EEPROM_get 2 (eeprom s) EEPROM_MAGIC_ADDR) EEPROM_MAGIC_VALUE)
    as [Hm | Hm].
  - destruct (loadSettings_accept s Hm) as (Hf & Hi & Hz & _).
    pose proof (EEPROM_get_bound 1 (eeprom s) EEPROM_STEP_ADDR) as Hbnd.
    split.
    + rewrite Hf.
      destruct (Z.geb_spec (EEPROM_get 4 (eeprom s) EEPROM_FREQ_ADDR) FREQ_MIN);
        destruct (Z.leb_spec (EEPROM_get 4 (eeprom s) EEPROM_FREQ_ADDR) FREQ_MAX);
        simpl; auto. split; assumption.
    + split; [|exact Hz]. rewrite Hi.
      destruct (Z.geb_spec (EEPROM_get 1 (eeprom s) EEPROM_STEP_ADDR) num_steps);
        unfold num_steps in *; simpl in *; lia.
  - rewrite (loadSettings_reject s Hm). split; assumption.
Qed.

(** C4. For every state s with frequency in [FREQ_MIN, FREQ_MAX] and step
    index below the table length, [saveSettings()] writes the frequency in 4
    bytes at address 0, the step index in 1 byte at address 4 and the magic
    word in 2 bytes at address 8, and [loadSettings()] run on any state that
    holds this EEPROM (the state after the next power-on, or s itself) gives
    the frequency and the step index of s, with the step size the table
    entry at that index. *)
Theorem save_load_round_trip (s t : State) :
  in_band (frequency s) -> 0 <= step_index s < num_steps ->
  eeprom t = eeprom (saveSettings s) ->
  trace (saveSettings s) =
    trace s ++ [EepromPut 0 (le_split 4 (frequency s));
                EepromPut 4 (le_split 1 (step_index s));
                EepromPut 8 (le_split 2 0xAA55)] /\
  frequency (loadSettings t) = frequency s /\
  step_index (loadSettings t) = step_index s /\
  step_size (loadSettings t) = step_sizes_at (step_index s) /\
  (step_inv s -> step_size (loadSettings t) = step_size s).
Proof.
  intros Hb Hi He.
  unfold in_band, FREQ_MIN, FREQ_MAX in Hb.
  assert (Hnum : num_steps = 4) by reflexivity. rewrite Hnum in Hi.
  assert (Hw : wrap32 (frequency s) = frequency s)
    by (unfold wrap32; apply Z.mod_small; lia).
  split.
  { rewrite saveSettings_trace, Hw. reflexivity. }
  destruct (saveSettings_read_back s) as (Hm & Hf & Hx).
  rewrite <- He in Hm, Hf, Hx.
  rewrite Z.mod_small in Hf by lia. rewrite Z.mod_small in Hx by lia.
  destruct (loadSettings_accept t Hm) as (Ef & Ei & Ez & _).
  rewrite Hf in Ef. rewrite Hx in Ei.
  assert (Ef' : frequency (loadSettings t) = frequency s).
  { rewrite Ef. unfold FREQ_MIN, FREQ_MAX.
    destruct (Z.geb_spec (frequency s) 7000000); [|lia].
    destruct (Z.leb_spec (frequency s) 7200000); [reflexivity | lia]. }
  assert (Ei' : step_index (loadSettings t) = step_index s).
  { rewrite Ei, Hnum. destruct (Z.geb_spec (step_index s) 4); [lia | reflexivity]. }
  split; [exact Ef'|]. split; [exact Ei'|].
  rewrite Ez, Ei'. split; [reflexivity|].
  intros [_ Hs]. now rewrite Hs.
Qed.

Lemma save_load_round_trip_witness :
  let s := set_step_size 100 (set_step_index 1 (set_frequency 7123450 (power_on ∅))) in
  let t := power_on (eeprom (saveSettings s)) in
  frequency (loadSettings t) = 7123450 /\
  step_index (loadSettings t) = 1 /\
  step_size (loadSettings t) = 100.
Proof.
  intros s t.
  destruct (save_load_round_trip s t) as (_ & Hf & Hi & _ & Hz).
  - unfold in_band; simpl; vm_compute; split; discriminate.
  - unfold num_steps; simpl; lia.
  - reflexivity.
  - split; [exact Hf|]. split; [exact Hi|]. apply Hz.
    split; [unfold num_steps; simpl; lia | reflexivity].
Defined.

(** C2, as stated, fails: the fields of a record with the right magic word
    are checked one by one.  With frequency 0 and step index 1 stored, the
    frequency falls back to 7,100,000 Hz but the stored step index 1 (step
    100 Hz) is taken, not the default 2; with frequency 7,050,000 and step
    index 9 stored, the step index falls back to 2 but the stored frequency
    is taken. *)
Lemma load_takes_stored_step_index_with_frequency_0 :
  let s := loadSettings (power_on (eeprom_record 0 1 EEPROM_MAGIC_VALUE)) in
  let t := loadSettings (power_on (eeprom_record 7050000 9 EEPROM_MAGIC_VALUE)) in
  EEPROM_get 4 (eeprom_record 0 1 EEPROM_MAGIC_VALUE) EEPROM_FREQ_ADDR = 0 /\
  frequency s = FREQ_DEFAULT /\
  step_index s = 1 /\ step_index s <> step_index (power_on ∅) /\
  step_size s = STEP_100HZ /\
  frequency t = 7050000 /\ frequency t <> FREQ_DEFAULT /\ step_index t = 2.
Proof. vm_compute. repeat split; congruence. Qed.

(** C2, amended. [loadSettings()] at power-on looks at the record only when
    the magic word is the sentinel; otherwise frequency, step index and step
    size keep their defaults (7,100,000 Hz, index 2, 1 kHz).  With the
    sentinel present each field is validated on its own: the stored
    frequency is taken when it lies in [FREQ_MIN, FREQ_MAX] and the default
    7,100,000 Hz kept otherwise; the stored step index is taken when it is
    below the table length and the default 2 otherwise; the step size is the
    table entry at the resulting index.  In every case the result has its
    frequency in the band and its step index inside the table. *)
Theorem load_validates_each_field (e : gmap Z byte) :
  let magic := EEPROM_get 2 e EEPROM_MAGIC_ADDR in
  let saved_freq := EEPROM_get 4 e EEPROM_FREQ_ADDR in
  let saved_step := EEPROM_get 1 e EEPROM_STEP_ADDR in
  let s := loadSettings (power_on e) in
  (magic <> EEPROM_MAGIC_VALUE ->
   frequency s = FREQ_DEFAULT /\ step_index s = 2 /\ step_size s = STEP_1KHZ) /\
  (magic = EEPROM_MAGIC_VALUE ->
   (in_band saved_freq -> frequency s = saved_freq) /\
   (~ in_band saved_freq -> frequency s = FREQ_DEFAULT) /\
   (saved_step < num_steps -> step_index s = saved_step) /\
   (num_steps <= saved_step -> step_index s = 2) /\
   step_size s = step_sizes_at (step_index s)) /\
  in_band (frequency s) /\ step_inv s.
Proof.
  intros magic saved_freq saved_step s.
  split; [|split].
  - intros Hm. unfold s. rewrite loadSettings_reject by exact Hm.
    repeat split.
  - intros Hm. destruct (loadSettings_accept (power_on e) Hm) as (Hf & Hi & Hz & _).
    fold s in Hf, Hi, Hz. cbn [eeprom power_on] in Hf, Hi. fold saved_freq in Hf.
    fold saved_step in Hi.
    split; [|split; [|split; [|split]]].
    + intros [H1 H2]. rewrite Hf.
      destruct (Z.geb_spec saved_freq FREQ_MIN); [|lia].
      destruct (Z.leb_spec saved_freq FREQ_MAX); [reflexivity | lia].
    + intros Hn. rewrite Hf.
      destruct (Z.geb_spec saved_freq FREQ_MIN);
        destruct (Z.leb_spec saved_freq FREQ_MAX); try reflexivity.
      exfalso. apply Hn. split; assumption.
    + intros Hlt. rewrite Hi. destruct (Z.geb_spec saved_step num_steps); [lia | reflexivity].
    + intros Hge. rewrite Hi. destruct (Z.geb_spec saved_step num_steps); [reflexivity | lia].
    + exact Hz.
  - destruct (power_on_inv e). now apply loadSettings_step_inv.
Qed.

Lemma load_validates_each_field_witness :
  let s := loadSettings (power_on (eeprom_record 7050000 3 EEPROM_MAGIC_VALUE)) in
  let t := loadSettings (power_on (eeprom_record 7050000 3 0)) in
  frequency s = 7050000 /\ step_index s = 3 /\ step_size s = STEP_10KHZ /\
  frequency t = FREQ_DEFAULT /\ step_index t = 2 /\ step_size t = STEP_1KHZ.
Proof.
  intros s t. subst s t.
  destruct (load_validates_each_field (eeprom_record 7050000 3 EEPROM_MAGIC_VALUE))
    as (_ & H & _).
  destruct H as (Hf & _ & Hi & _ & Hz); [vm_compute; reflexivity|].
  destruct (load_validates_each_field (eeprom_record 7050000 3 0)) as (H' & _).
  destruct H' as (Hf' & Hi' & Hz'); [vm_compute; discriminate|].
  split; [apply Hf; vm_compute; split; discriminate|].
  split; [apply Hi; vm_compute; reflexivity|].
  split; [rewrite Hz; vm_compute; reflexivity|].
  split; [exact Hf'|]. split; [exact Hi' | exact Hz'].
Defined.

(** ** Reachable states *)

Lemma handlePTT_keeps_tuning i s :
  frequency (handlePTT i s) = frequency s /\
  step_index (handlePTT i s) = step_index s /\
  step_size (handlePTT i s) = step_size s.
Proof.
  unfold handlePTT.
  destruct (negb (eqb (level i) (last_ptt_state s))); [|tauto].
  destruct (sub32 (t_check i) (last_ptt_time s) >? debounce_delay); [|tauto].
  cbn [tx_mode set_last_ptt_time].
  destruct (negb (eqb (eqb (level i) LOW) (tx_mode s))); repeat split.
Qed.

Lemma handleEncoderSwitch_inv i s :
  step_inv s ->
  frequency (handleEncoderSwitch i s) = frequency s /\
  step_inv (handleEncoderSwitch i s).
Proof.
  intros Hs. unfold handleEncoderSwitch.
  destruct (eqb (level i) LOW && eqb (last_sw_state s) HIGH); [|now split].
  destruct (sub32 (t_check i) (last_enc_sw_time s) >? debounce_delay); [|now split].
  destruct (set_last_sw_state_tuning (level i) (stepCycle (t_store i) s))
    as (Ef & Ez & _ & _).
  destruct (set_last_sw_state_fields (level i) (stepCycle (t_store i) s)) as (Ei & _).
  split.
  - rewrite Ef. exact (proj1 (stepCycle_keeps (t_store i) s)).
  - unfold step_inv. rewrite Ei, Ez. exact (stepCycle_step_inv (t_store i) s).
Qed.

Lemma loop_inv i s :
  in_band (frequency s) -> step_inv s ->
  in_band (frequency (loop i s)) /\ step_inv (loop i s).
Proof.
  intros Hb Hs. unfold loop.
  destruct (handleEncoder_inv (enc i) s Hb Hs) as [Hb1 Hs1].
  set (s1 := handleEncoder (enc i) s) in *.
  destruct (handlePTT_keeps_tuning (ptt i) s1) as (Ef & Ei & Ez).
  set (s2 := handlePTT (ptt i) s1) in *.
  assert (Hs2 : step_inv s2) by (unfold step_inv; now rewrite Ei, Ez).
  destruct (handleEncoderSwitch_inv (sw i) s2 Hs2) as [Ef3 Hs3].
  set (s3 := handleEncoderSwitch (sw i) s2) in *.
  assert (Hb3 : in_band (frequency s3)) by (now rewrite Ef3, Ef).
  destruct (display_update_needed s3); split; assumption.
Qed.

Lemma run_inv inputs : forall s,
  in_band (frequency s) -> step_inv s ->
  in_band (frequency (run inputs s)) /\ step_inv (run inputs s).
Proof.
  induction inputs as [|i inputs IH]; intros s Hb Hs; [now split|].
  destruct (loop_inv i s Hb Hs) as [Hb' Hs']. now apply IH.
Qed.

(** What [loadSettings()] can do to a state. *)
Lemma loadSettings_shape s :
  exists f i z msg,
    loadSettings s =
    emit (SerialPrintln msg) (set_step_size z (set_step_index i (set_frequency f s))).
Proof.
  unfold loadSettings.
  destruct (EEPROM_get 2 (eeprom s) EEPROM_MAGIC_ADDR =? EEPROM_MAGIC_VALUE).
  - destruct ((EEPROM_get 4 (eeprom s) EEPROM_FREQ_ADDR >=? FREQ_MIN) &&
              (EEPROM_get 4 (eeprom s) EEPROM_FREQ_ADDR <=? FREQ_MAX));
      cbn [step_index set_step_index set_frequency];
      destruct (EEPROM_get 1 (eeprom s) EEPROM_STEP_ADDR >=? num_steps);
      do 4 eexists; reflexivity.
  - exists (frequency s), (step_index s), (step_size s). eexists.
    now destruct s.
Qed.

(** [setup()] ends in a state of the data model, whatever the EEPROM holds. *)
Lemma setup_inv display_ok i2c_found e s0 :
  setup display_ok i2c_found (power_on e) = Some s0 ->
  in_band (frequency s0) /\ step_inv s0.
Proof.
  unfold setup, setupSi5351.
  set (s := emit (SerialPrintln "Initializing...")
              (emit (SerialPrintln "7MHz SSB Transceiver")
                 (emit (DigitalWrite PIN_TX_EN LOW) (power_on e)))).
  assert (Hinv : in_band (frequency (loadSettings s)) /\ step_inv (loadSettings s)).
  { apply loadSettings_step_inv; apply (power_on_inv e). }
  destruct display_ok, i2c_found; simpl negb; cbv iota; try discriminate.
  intros H. injection H as <-. exact Hinv.
Qed.


(** ** The lower bound check *)



(** ** Rendering *)

(** [loop()] draws a frame exactly when the flag is set once the three
    handlers have run, and leaves the flag cleared. *)
Lemma loop_render i s :
  let s3 := handleEncoderSwitch (sw i) (handlePTT (ptt i) (handleEncoder (enc i) s)) in
  display_update_needed (loop i s) = false /\
  trace (loop i s) =
    (if display_update_needed s3
     then trace s3 ++ [Render (frequency s3) (step_size s3) (tx_mode s3)]
     else trace s3).
Proof.
  intros s3. unfold loop. fold s3.
  destruct (display_update_needed s3) eqn:E; split; try reflexivity. exact E.
Qed.

(** With nothing happening at the inputs the handlers leave the state alone. *)
Lemma idle_handlers now s :
  last_ptt_state s = HIGH -> last_sw_state s = HIGH ->
  handleEncoderSwitch (sw (idle now)) (handlePTT (ptt (idle now))
    (handleEncoder (enc (idle now)) s)) = s.
Proof.
  intros Hp Hs. unfold idle; cbn [enc ptt sw].
  rewrite handleEncoder_other by discriminate.
  rewrite handlePTT_same_level by (now rewrite Hp).
  unfold handleEncoderSwitch. cbn [level eqb HIGH LOW andb].
  rewrite <- Hs. apply set_last_sw_state_same.
Qed.

(** An idle iteration entered with the flag cleared draws nothing. *)
Lemma idle_loop_clean now s :
  last_ptt_state s = HIGH -> last_sw_state s = HIGH ->
  display_update_needed s = false -> loop (idle now) s = s.
Proof.
  intros Hp Hs Hd. unfold loop. rewrite (idle_handlers now s Hp Hs), Hd. reflexivity.
Qed.

(** [setup()] draws the first frame and leaves the flag set. *)
Lemma setup_leaves_flag_set e s0 :
  setup true true (power_on e) = Some s0 ->
  display_update_needed s0 = true /\
  last_ptt_state s0 = HIGH /\ last_sw_state s0 = HIGH /\
  renders (trace s0) = [snapshot s0].
Proof.
  unfold setup, setupSi5351.
  destruct (loadSettings_shape
              (emit (SerialPrintln "Initializing...")
                 (emit (SerialPrintln "7MHz SSB Transceiver")
                    (emit (DigitalWrite PIN_TX_EN LOW) (power_on e)))))
    as (f & i & z & msg & E).
  rewrite E. cbn [negb]. intros H. injection H as <-.
  repeat split.
Qed.

(** C5 fails on the code at start-up: [setup()] draws the first frame and
    leaves [display_update_needed] set, so the first iteration of [loop()]
    draws again although nothing happened at the inputs and frequency, step
    size and transmit flag are what the first frame showed. *)
Theorem first_loop_redraws_unchanged_state (e : gmap Z byte) (now : Z) :
  exists s0,
    setup true true (power_on e) = Some s0 /\
    let s1 := loop (idle now) s0 in
    display_update_needed s0 = true /\
    snapshot s1 = snapshot s0 /\
    renders (trace s0) = [snapshot s0] /\
    renders (trace s1) = [snapshot s0; snapshot s0] /\
    loop (idle now) s1 = s1.
Proof.
  destruct (setup true true (power_on e)) as [s0|] eqn:E.
  2:{ unfold setup, setupSi5351 in E. discriminate E. }
  exists s0. split; [reflexivity|].
  destruct (setup_leaves_flag_set e s0 E) as (Hd & Hp & Hs & Hr).
  destruct (loop_render (idle now) s0) as [Hc Ht].
  rewrite (idle_handlers now s0 Hp Hs), Hd in Ht.
  assert (El : loop (idle now) s0 = set_display_update_needed false (updateDisplay s0)).
  { unfold loop. rewrite (idle_handlers now s0 Hp Hs), Hd. reflexivity. }
  cbv zeta. split; [exact Hd|].
  split; [rewrite El; reflexivity|].
  split; [exact Hr|].
  split.
  - rewrite Ht. unfold renders in *. rewrite flat_map_app, Hr. reflexivity.
  - apply idle_loop_clean; try exact Hc; rewrite El; assumption.
Qed.

Lemma handleEncoder_effect r s :
  in_band (frequency s) -> step_inv s ->
  renders (trace (handleEncoder r s)) = renders (trace s) /\
  ((display_update_needed (handleEncoder r s) = display_update_needed s /\
    frequency (handleEncoder r s) = frequency s) \/
   (display_update_needed (handleEncoder r s) = true /\
    frequency (handleEncoder r s) <> frequency s)).
Proof.
  intros Hb Hs. pose proof (step_inv_bounds s Hs) as Hst.
  assert (Hr : forall f, renders (trace (set_display_update_needed true
                                           (updateVFO (set_frequency f s)))) =
                         renders (trace s)).
  { intros f.
    change (trace (set_display_update_needed true (updateVFO (set_frequency f s))))
      with (trace (updateVFO (set_frequency f s))).
    rewrite updateVFO_trace. no_render. }
  destruct (Z.eq_dec r DIR_CW) as [-> | Hcw].
  { destruct (handleEncoder_cw s Hb Hs) as [[H ->] | [H ->]]; [|now split; [|left]].
    split; [apply Hr|]. right. rewrite frequency_after_update. split; [reflexivity | lia]. }
  destruct (Z.eq_dec r DIR_CCW) as [-> | Hccw].
  { destruct (handleEncoder_ccw s Hb Hs) as [[H ->] | [H ->]]; [|now split; [|left]].
    split; [apply Hr|]. right. rewrite frequency_after_update. split; [reflexivity | lia]. }
  rewrite handleEncoder_other by assumption. now split; [|left].
Qed.

Lemma handlePTT_effect i s :
  renders (trace (handlePTT i s)) = renders (trace s) /\
  ((display_update_needed (handlePTT i s) = display_update_needed s /\
    tx_mode (handlePTT i s) = tx_mode s) \/
   (display_update_needed (handlePTT i s) = true /\
    tx_mode (handlePTT i s) <> tx_mode s)).
Proof.
  unfold handlePTT.
  destruct (negb (eqb (level i) (last_ptt_state s))); [|now split; [|left]].
  destruct (sub32 (t_check i) (last_ptt_time s) >? debounce_delay); [|now split; [|left]].
  cbn [tx_mode set_last_ptt_time].
  destruct (eqb_spec (eqb (level i) LOW) (tx_mode s)) as [E | Hne]; cbn [negb].
  - now split; [|left].
  - split; [destruct s; no_render|]. right. split; [reflexivity|].
    destruct s; simpl in *. congruence.
Qed.

Lemma step_sizes_at_next_differs i :
  0 <= i < num_steps -> step_sizes_at ((i + 1) mod num_steps) <> step_sizes_at i.
Proof.
  unfold num_steps; simpl; intros H.
  assert (i = 0 \/ i = 1 \/ i = 2 \/ i = 3) as [-> | [-> | [-> | ->]]] by lia;
    vm_compute; discriminate.
Qed.

Lemma handleEncoderSwitch_effect i s :
  step_inv s ->
  renders (trace (handleEncoderSwitch i s)) = renders (trace s) /\
  tx_mode (handleEncoderSwitch i s) = tx_mode s /\
  ((display_update_needed (handleEncoderSwitch i s) = display_update_needed s /\
    step_size (handleEncoderSwitch i s) = step_size s) \/
   (display_update_needed (handleEncoderSwitch i s) = true /\
    step_size (handleEncoderSwitch i s) <> step_size s)).
Proof.
  intros [Hi Hz]. unfold handleEncoderSwitch.
  destruct (eqb (level i) LOW && eqb (last_sw_state s) HIGH);
    [|now split; [|split; [|left]]].
  destruct (sub32 (t_check i) (last_enc_sw_time s) >? debounce_delay);
    [|now split; [|split; [|left]]].
  destruct (set_last_sw_state_tuning (level i) (stepCycle (t_store i) s))
    as (_ & Ez & Ed & Ex).
  destruct (set_last_sw_state_fields (level i) (stepCycle (t_store i) s)) as (_ & Et).
  rewrite Et, Ez, Ed, Ex. split; [|split].
  - rewrite stepCycle_trace. no_render.
  - exact (proj1 (proj2 (stepCycle_keeps (t_store i) s))).
  - right. split; [exact (stepCycle_marks_dirty (t_store i) s)|].
    rewrite stepCycle_step_size, stepCycle_step_index, Hz.
    exact (step_sizes_at_next_differs (step_index s) Hi).
Qed.

(** From the second iteration on (the flag is cleared when an iteration
    ends) [loop()] draws a frame only when frequency, step size or transmit
    flag differ from what they were when the iteration began, it draws that
    frame whenever they differ, and it ends with the flag cleared. *)
Lemma loop_draws_iff_changed i s :
  in_band (frequency s) -> step_inv s -> display_update_needed s = false ->
  display_update_needed (loop i s) = false /\
  ((snapshot (loop i s) = snapshot s /\
    renders (trace (loop i s)) = renders (trace s)) \/
   (snapshot (loop i s) <> snapshot s /\
    renders (trace (loop i s)) = renders (trace s) ++ [snapshot (loop i s)])).
Proof.
  intros Hb Hs Hd.
  destruct (loop_render i s) as [Hc Ht]. split; [exact Hc|].
  destruct (handleEncoder_effect (enc i) s Hb Hs) as (R1 & C1).
  destruct (handleEncoder_keeps (enc i) s) as (Z1 & I1 & T1).
  destruct (handleEncoder_inv (enc i) s Hb Hs) as [_ Hs1].
  set (s1 := handleEncoder (enc i) s) in *.
  destruct (handlePTT_effect (ptt i) s1) as (R2 & C2).
  destruct (handlePTT_keeps_tuning (ptt i) s1) as (F2 & I2 & Z2).
  set (s2 := handlePTT (ptt i) s1) in *.
  assert (Hs2 : step_inv s2) by (unfold step_inv; now rewrite I2, Z2).
  destruct (handleEncoderSwitch_effect (sw i) s2 Hs2) as (R3 & T3 & C3).
  destruct (handleEncoderSwitch_inv (sw i) s2 Hs2) as [F3 _].
  set (s3 := handleEncoderSwitch (sw i) s2) in *.
  assert (Hsnap : snapshot (loop i s) = snapshot s3).
  { unfold loop. fold s1 s2 s3. now destruct (display_update_needed s3). }
  rewrite Hsnap, Ht. unfold snapshot.
  destruct (display_update_needed s3) eqn:E3.
  - right. split.
    + intros Heq. apply pair_equal_spec in Heq as [Heq Et].
      apply pair_equal_spec in Heq as [Ef Ez].
      destruct C3 as [[D3 Z3] | [_ N3]]; [|congruence].
      destruct C2 as [[D2 X2] | [_ N2]]; [|congruence].
      destruct C1 as [[D1 X1] | [_ N1]]; [|congruence].
      congruence.
    + unfold renders in *. rewrite flat_map_app, R3, R2, R1. reflexivity.
  - left. split.
    + destruct C3 as [[D3 Z3] | [D3 _]]; [|congruence].
      destruct C2 as [[D2 X2] | [D2 _]]; [|congruence].
      destruct C1 as [[D1 X1] | [D1 _]]; [|congruence].
      congruence.
    + congruence.
Qed.

(** ** The synthesizer command *)

(** An encoder result in a state of the data model: nothing happens, or the
    frequency moves inside the band and one command follows it. *)
Lemma handleEncoder_commands r s :
  in_band (frequency s) -> step_inv s ->
  handleEncoder r s = s \/
  (frequency (handleEncoder r s) <> frequency s /\
   in_band (frequency (handleEncoder r s)) /\
   (r = DIR_CCW -> frequency (handleEncoder r s) = frequency s - step_size s) /\
   vfo_commands (trace (handleEncoder r s)) =
   vfo_commands (trace s) ++ [(frequency (handleEncoder r s) + 9000000) * 100]).
Proof.
  intros Hb Hs.
  destruct (handleEncoder_inv r s Hb Hs) as [Hb' _].
  pose proof (step_inv_bounds s Hs) as Hst.
  assert (Hcmd : forall f, in_band f ->
            vfo_commands (trace (set_display_update_needed true
                                   (updateVFO (set_frequency f s)))) =
            vfo_commands (trace s) ++ [(f + 9000000) * 100]).
  { intros f Hf. unfold in_band, FREQ_MIN, FREQ_MAX in Hf.
    change (trace (set_display_update_needed true (updateVFO (set_frequency f s))))
      with (trace (updateVFO (set_frequency f s))).
    apply (updateVFO_exact (set_frequency f s)); simpl; unfold IF_FREQ; lia. }
  destruct (Z.eq_dec r DIR_CW) as [-> | Hcw].
  { destruct (handleEncoder_cw s Hb Hs) as [[H E] | [H E]]; [right | now left].
    rewrite E in Hb' |- *. rewrite frequency_after_update in Hb' |- *.
    split; [lia|]. split; [exact Hb'|]. split; [intros C; discriminate C|].
    now apply Hcmd. }
  destruct (Z.eq_dec r DIR_CCW) as [-> | Hccw].
  { destruct (handleEncoder_ccw s Hb Hs) as [[H E] | [H E]]; [right | now left].
    rewrite E in Hb' |- *. rewrite frequency_after_update in Hb' |- *.
    split; [lia|]. split; [exact Hb'|]. split; [reflexivity|].
    now apply Hcmd. }
  left. now apply handleEncoder_other.
Qed.

Lemma handlePTT_no_command i s :
  vfo_commands (trace (handlePTT i s)) = vfo_commands (trace s).
Proof.
  unfold handlePTT.
  destruct (negb (eqb (level i) (last_ptt_state s))); [|reflexivity].
  destruct (sub32 (t_check i) (last_ptt_time s) >? debounce_delay); [|reflexivity].
  cbn [tx_mode set_last_ptt_time].
  destruct (negb (eqb (eqb (level i) LOW) (tx_mode s))); [|reflexivity].
  destruct s; no_command.
Qed.

Lemma handleEncoderSwitch_no_command i s :
  vfo_commands (trace (handleEncoderSwitch i s)) = vfo_commands (trace s).
Proof.
  unfold handleEncoderSwitch.
  destruct (eqb (level i) LOW && eqb (last_sw_state s) HIGH); [|reflexivity].
  destruct (sub32 (t_check i) (last_enc_sw_time s) >? debounce_delay); [|reflexivity].
  destruct (set_last_sw_state_fields (level i) (stepCycle (t_store i) s)) as (_ & ->).
  rewrite stepCycle_trace. no_command.
Qed.

Lemma loop_commands_ok i s :
  in_band (frequency s) -> step_inv s -> commands_ok s -> commands_ok (loop i s).
Proof.
  intros Hb Hs Hc. unfold commands_ok in *.
  destruct (loop_render i s) as [_ Ht]. rewrite Ht.
  set (s1 := handleEncoder (enc i) s).
  set (s2 := handlePTT (ptt i) s1).
  set (s3 := handleEncoderSwitch (sw i) s2).
  assert (H3 : Forall vfo_in_band (vfo_commands (trace s3))).
  { unfold s3. rewrite handleEncoderSwitch_no_command.
    unfold s2. rewrite handlePTT_no_command. unfold s1.
    destruct (handleEncoder_commands (enc i) s Hb Hs) as [-> | (_ & Hb' & _ & ->)];
      [exact Hc|].
    apply Forall_app. split; [exact Hc|]. constructor; [|constructor].
    exists (frequency (handleEncoder (enc i) s)). split; [exact Hb' | reflexivity]. }
  destruct (display_update_needed s3); [|exact H3].
  unfold vfo_commands in *. rewrite flat_map_app. simpl. now rewrite app_nil_r.
Qed.

Lemma run_commands_ok inputs : forall s,
  in_band (frequency s) -> step_inv s -> commands_ok s -> commands_ok (run inputs s).
Proof.
  induction inputs as [|i inputs IH]; intros s Hb Hs Hc; [exact Hc|].
  destruct (loop_inv i s Hb Hs) as [Hb' Hs'].
  apply (IH (loop i s) Hb' Hs'). now apply loop_commands_ok.
Qed.

Lemma emit_fields o s :
  trace (emit o s) = trace s ++ [o] /\ frequency (emit o s) = frequency s.
Proof. split; reflexivity. Qed.

Lemma updateDisplay_fields s :
  trace (updateDisplay s) = trace s ++ [Render (frequency s) (step_size s) (tx_mode s)] /\
  frequency (updateDisplay s) = frequency s.
Proof. split; reflexivity. Qed.

Lemma loadSettings_no_command s :
  vfo_commands (trace (loadSettings s)) = vfo_commands (trace s).
Proof.
  destruct (loadSettings_shape s) as (f & i & z & msg & ->).
  destruct (emit_fields (SerialPrintln msg)
              (set_step_size z (set_step_index i (set_frequency f s)))) as [-> _].
  change (trace (set_step_size z (set_step_index i (set_frequency f s))))
    with (trace s).
  no_command.
Qed.

(** The state [setup()] ends in, when it ends. *)
Lemma setup_some display_ok i2c_found s s0 :
  setup display_ok i2c_found s = Some s0 ->
  s0 = emit (SerialPrintln "Ready!")
         (updateDisplay
            (emit (SerialPrintln "Si5351 initialized")
               (emit (SetFreq (mul64 BFO_FREQ 100) SI5351_CLK1)
                  (updateVFO
                     (loadSettings
                        (emit (SerialPrintln "Initializing...")
                           (emit (SerialPrintln "7MHz SSB Transceiver")
                              (emit (DigitalWrite PIN_TX_EN LOW) s)))))))).
Proof.
  unfold setup, setupSi5351.
  destruct display_ok, i2c_found; cbn [negb]; try discriminate.
  intros H. injection H as <-. reflexivity.
Qed.

(** [setup()] commands the tunable channel once, for the frequency it
    starts with. *)
Lemma setup_commands display_ok i2c_found e s0 :
  setup display_ok i2c_found (power_on e) = Some s0 ->
  vfo_commands (trace s0) = [(frequency s0 + IF_FREQ) * 100].
Proof.
  intros H. destruct (setup_inv _ _ _ _ H) as [Hb _]. revert Hb.
  rewrite (setup_some _ _ _ _ H). clear H.
  set (l := loadSettings _).
  destruct (emit_fields (SerialPrintln "Ready!")
              (updateDisplay
                 (emit (SerialPrintln "Si5351 initialized")
                    (emit (SetFreq (mul64 BFO_FREQ 100) SI5351_CLK1) (updateVFO l)))))
    as [-> ->].
  destruct (updateDisplay_fields
              (emit (SerialPrintln "Si5351 initialized")
                 (emit (SetFreq (mul64 BFO_FREQ 100) SI5351_CLK1) (updateVFO l))))
    as [-> ->].
  destruct (emit_fields (SerialPrintln "Si5351 initialized")
              (emit (SetFreq (mul64 BFO_FREQ 100) SI5351_CLK1) (updateVFO l)))
    as [-> ->].
  destruct (emit_fields (SetFreq (mul64 BFO_FREQ 100) SI5351_CLK1) (updateVFO l))
    as [-> ->].
  destruct (updateVFO_fields l) as (-> & _).
  intros Hb. unfold in_band, FREQ_MIN, FREQ_MAX in Hb.
  unfold vfo_commands. rewrite !flat_map_app. cbn [flat_map app].
  rewrite !app_nil_r.
  destruct (updateVFO_exact l) as [_ Hc]; [lia | unfold IF_FREQ; lia |].
  unfold vfo_commands in Hc. rewrite Hc.
  pose proof (loadSettings_no_command
                (emit (SerialPrintln "Initializing...")
                   (emit (SerialPrintln "7MHz SSB Transceiver")
                      (emit (DigitalWrite PIN_TX_EN LOW) (power_on e))))) as Hl.
  fold l in Hl. unfold vfo_commands in Hl. rewrite Hl. reflexivity.
Qed.

(** C3. In a state of the data model, whenever an encoder result changes
    the frequency, exactly one command goes to the tunable channel (CLK0)
    and its value is (new frequency + 9,000,000) * 100, with the new
    frequency inside [FREQ_MIN, FREQ_MAX]; a result that leaves the
    frequency unchanged commands nothing.  From 7,100,000 Hz with step
    1,000 Hz a counter-clockwise tick gives 7,099,000 Hz and the command
    1,609,900,000.  In every execution, from [setup()] on, every value
    commanded on the tunable channel is (f + 9,000,000) * 100 for a
    frequency f of the band. *)
Theorem vfo_command_on_frequency_change (s : State) (r : Z) :
  in_band (frequency s) -> step_inv s ->
  let s' := handleEncoder r s in
  in_band (frequency s') /\
  (frequency s' <> frequency s ->
   vfo_commands (trace s') =
   vfo_commands (trace s) ++ [(frequency s' + 9000000) * 100]) /\
  (frequency s' = frequency s -> trace s' = trace s) /\
  (frequency s = 7100000 -> step_size s = 1000 -> r = DIR_CCW ->
   frequency s' = 7099000 /\
   vfo_commands (trace s') = vfo_commands (trace s) ++ [1609900000]) /\
  (forall display_ok i2c_found e s0 inputs,
     setup display_ok i2c_found (power_on e) = Some s0 ->
     Forall vfo_in_band (vfo_commands (trace (run inputs s0)))).
Proof.
  intros Hb Hs s'. subst s'.
  destruct (handleEncoder_inv r s Hb Hs) as [Hb' _].
  split; [exact Hb'|].
  assert (Hn : forall display_ok i2c_found e s0 inputs,
     setup display_ok i2c_found (power_on e) = Some s0 ->
     Forall vfo_in_band (vfo_commands (trace (run inputs s0)))).
  { intros d c e s0 inputs H. destruct (setup_inv _ _ _ _ H) as [Hb0 Hs0].
    apply run_commands_ok; try assumption.
    unfold commands_ok. rewrite (setup_commands _ _ _ _ H).
    constructor; [|constructor]. exists (frequency s0). now split. }
  destruct (handleEncoder_commands r s Hb Hs) as [E | (Hne & _ & Hccw & Hcmd)].
  - split; [intros C; rewrite E in C; now contradiction C|].
    split; [intros _; now rewrite E|].
    split; [|exact Hn].
    intros Hfr Hsz Hr. exfalso. subst r.
    destruct (handleEncoder_ccw s Hb Hs) as [[H E'] | [H E']].
    + rewrite E in E'. apply (f_equal frequency) in E'.
      rewrite frequency_after_update in E'. pose proof (step_inv_bounds s Hs). lia.
    + unfold FREQ_MIN in H. lia.
  - split; [intros _; exact Hcmd|]. split; [intros C; contradiction|].
    split; [|exact Hn].
    intros Hfr Hsz Hr. rewrite Hcmd, (Hccw Hr), Hfr, Hsz. split; reflexivity.
Qed.

Lemma vfo_command_on_frequency_change_witness :
  let s := power_on ∅ in
  let s' := handleEncoder DIR_CCW s in
  frequency s' = 7099000 /\ vfo_commands (trace s') = [1609900000].
Proof.
  intros s s'.
  destruct (vfo_command_on_frequency_change (power_on ∅) DIR_CCW)
    as (_ & _ & _ & H & _).
  - unfold in_band; simpl; vm_compute; split; discriminate.
  - unfold step_inv; simpl; vm_compute; repeat split; discriminate.
  - apply H; reflexivity.
Defined.

(** * Further properties of the sketch *)

(** ** What each handler adds to the trace and does to the EEPROM *)

Lemma handleEncoder_trace r s :
  trace (handleEncoder r s) = trace s \/
  exists v n,
    trace (handleEncoder r s) =
    trace s ++ [SetFreq v SI5351_CLK0; SerialPrint "VFO: ";
                SerialPrintNum n; SerialPrintln " kHz"].
Proof.
  assert (H : forall f, exists v n,
             trace (set_display_update_needed true (updateVFO (set_frequency f s))) =
             trace s ++ [SetFreq v SI5351_CLK0; SerialPrint "VFO: ";
                         SerialPrintNum n; SerialPrintln " kHz"]).
  { intros f. do 2 eexists.
    change (trace (set_display_update_needed true (updateVFO (set_frequency f s))))
      with (trace (updateVFO (set_frequency f s))).
    rewrite updateVFO_trace. reflexivity. }
  unfold handleEncoder.
  destruct (r =? DIR_CW).
  - destruct (add64 (frequency s) (step_size s) <=? FREQ_MAX); [right; apply H | now left].
  - destruct (r =? DIR_CCW); [|now left].
    destruct (frequency s >=? add64 (step_size s) FREQ_MIN); [right; apply H | now left].
Qed.

Lemma handleEncoder_eeprom r s :
  eeprom (handleEncoder r s) = eeprom s /\
  last_ptt_state (handleEncoder r s) = last_ptt_state s /\
  last_sw_state (handleEncoder r s) = last_sw_state s.
Proof.
  unfold handleEncoder.
  destruct (r =? DIR_CW).
  - destruct (add64 (frequency s) (step_size s) <=? FREQ_MAX); repeat split.
  - destruct (r =? DIR_CCW); [|repeat split].
    destruct (frequency s >=? add64 (step_size s) FREQ_MIN); repeat split.
Qed.

(** [handlePTT()] either leaves mode and trace alone, or flips the mode and
    writes the new mode to the transmit-enable pin. *)
Lemma handlePTT_cases i s :
  (tx_mode (handlePTT i s) = tx_mode s /\ trace (handlePTT i s) = trace s) \/
  (tx_mode (handlePTT i s) = negb (tx_mode s) /\
   trace (handlePTT i s) =
   trace s ++ [DigitalWrite PIN_TX_EN (negb (tx_mode s));
               SerialPrintln (if negb (tx_mode s) then "TX" else "RX")]).
Proof.
  unfold handlePTT.
  destruct (negb (eqb (level i) (last_ptt_state s))); [|now left].
  destruct (sub32 (t_check i) (last_ptt_time s) >? debounce_delay); [|now left].
  cbn [tx_mode set_last_ptt_time].
  destruct (eqb_spec (eqb (level i) LOW) (tx_mode s)) as [E | Hne]; cbn [negb].
  - now left.
  - right.
    assert (En : eqb (level i) LOW = negb (tx_mode s))
      by (destruct (eqb (level i) LOW), (tx_mode s); simpl; congruence).
    rewrite En. destruct s; simpl. split; [reflexivity|].
    rewrite <- app_assoc. destruct tx_mode0; reflexivity.
Qed.

Lemma handlePTT_eeprom i s :
  eeprom (handlePTT i s) = eeprom s /\
  last_sw_state (handlePTT i s) = last_sw_state s /\
  last_enc_sw_time (handlePTT i s) = last_enc_sw_time s.
Proof.
  unfold handlePTT.
  destruct (negb (eqb (level i) (last_ptt_state s))); [|repeat split].
  destruct (sub32 (t_check i) (last_ptt_time s) >? debounce_delay); [|repeat split].
  cbn [tx_mode set_last_ptt_time].
  destruct (negb (eqb (eqb (level i) LOW) (tx_mode s))); repeat split.
Qed.

Lemma stepCycle_eeprom t s :
  eeprom (stepCycle t s) =
  EEPROM_write_bytes
    (EEPROM_write_bytes
       (EEPROM_write_bytes (eeprom s) EEPROM_FREQ_ADDR (le_split 4 (wrap32 (frequency s))))
       EEPROM_STEP_ADDR (le_split 1 (step_index (stepCycle t s))))
    EEPROM_MAGIC_ADDR (le_split 2 (wrap16 EEPROM_MAGIC_VALUE)).
Proof. destruct s; reflexivity. Qed.

(** [handleEncoderSwitch()] either only remembers the level, or performs
    the step change. *)
Lemma handleEncoderSwitch_cases i s :
  handleEncoderSwitch i s = set_last_sw_state (level i) s \/
  (level i = LOW /\ last_sw_state s = HIGH /\
   sub32 (t_check i) (last_enc_sw_time s) > debounce_delay /\
   handleEncoderSwitch i s = set_last_sw_state LOW (stepCycle (t_store i) s)).
Proof.
  unfold handleEncoderSwitch.
  destruct (level i) eqn:El; [now left|].
  destruct (last_sw_state s) eqn:Es; [|now left].
  cbn [eqb LOW HIGH andb].
  destruct (sub32 (t_check i) (last_enc_sw_time s) >? debounce_delay) eqn:Et; [|now left].
  right. repeat split. rewrite Z.gtb_ltb in Et. apply Z.ltb_lt in Et. lia.
Qed.

Lemma set_last_sw_state_rest a s :
  eeprom (set_last_sw_state a s) = eeprom s /\
  last_ptt_state (set_last_sw_state a s) = last_ptt_state s /\
  last_sw_state (set_last_sw_state a s) = a /\
  last_enc_sw_time (set_last_sw_state a s) = last_enc_sw_time s.
Proof. repeat split. Qed.

Lemma loop_as_handlers i s :
  let s3 := handleEncoderSwitch (sw i) (handlePTT (ptt i) (handleEncoder (enc i) s)) in
  loop i s = if display_update_needed s3
             then set_display_update_needed false (updateDisplay s3) else s3.
Proof. reflexivity. Qed.

Lemma drawn_fields s :
  eeprom (set_display_update_needed false (updateDisplay s)) = eeprom s /\
  tx_mode (set_display_update_needed false (updateDisplay s)) = tx_mode s /\
  frequency (set_display_update_needed false (updateDisplay s)) = frequency s /\
  step_size (set_display_update_needed false (updateDisplay s)) = step_size s /\
  trace (set_display_update_needed false (updateDisplay s)) =
  trace s ++ [Render (frequency s) (step_size s) (tx_mode s)].
Proof. repeat split. Qed.

(** ** What the loop adds to the trace *)

Lemma handleEncoder_delta r s :
  exists d, trace (handleEncoder r s) = trace s ++ d /\ forallb loop_output d = true.
Proof.
  destruct (handleEncoder_trace r s) as [E | (v & n & E)]; rewrite E.
  - exists []. now rewrite app_nil_r.
  - eexists. split; reflexivity.
Qed.

Lemma handlePTT_delta i s :
  exists d, trace (handlePTT i s) = trace s ++ d /\ forallb loop_output d = true.
Proof.
  destruct (handlePTT_cases i s) as [[_ E] | [_ E]]; rewrite E.
  - exists []. now rewrite app_nil_r.
  - eexists. split; reflexivity.
Qed.

Lemma handleEncoderSwitch_delta i s :
  exists d, trace (handleEncoderSwitch i s) = trace s ++ d /\
            forallb loop_output d = true.
Proof.
  destruct (handleEncoderSwitch_cases i s) as [E | (_ & _ & _ & E)]; rewrite E.
  - exists []. now rewrite app_nil_r.
  - destruct (set_last_sw_state_fields LOW (stepCycle (t_store i) s)) as [_ ->].
    rewrite stepCycle_trace. eexists. split; [reflexivity|].
    cbn [forallb loop_output]. rewrite !length_le_split. reflexivity.
Qed.

(** An iteration of [loop()] only appends to the trace, and only calls of
    the kinds listed in [loop_output]. *)
Lemma loop_delta i s :
  exists d, trace (loop i s) = trace s ++ d /\ forallb loop_output d = true.
Proof.
  rewrite loop_as_handlers.
  destruct (handleEncoder_delta (enc i) s) as (d1 & E1 & F1).
  set (s1 := handleEncoder (enc i) s) in *.
  destruct (handlePTT_delta (ptt i) s1) as (d2 & E2 & F2).
  set (s2 := handlePTT (ptt i) s1) in *.
  destruct (handleEncoderSwitch_delta (sw i) s2) as (d3 & E3 & F3).
  set (s3 := handleEncoderSwitch (sw i) s2) in *.
  cbv zeta.
  destruct (display_update_needed s3).
  - destruct (drawn_fields s3) as (_ & _ & _ & _ & ->).
    exists (d1 ++ d2 ++ d3 ++ [Render (frequency s3) (step_size s3) (tx_mode s3)]).
    rewrite E3, E2, E1, <- !app_assoc. split; [reflexivity|].
    rewrite !forallb_app, F1, F2, F3. reflexivity.
  - exists (d1 ++ d2 ++ d3).
    rewrite E3, E2, E1, <- !app_assoc. split; [reflexivity|].
    rewrite !forallb_app, F1, F2, F3. reflexivity.
Qed.

Lemma run_delta inputs : forall s,
  exists d, trace (run inputs s) = trace s ++ d /\ forallb loop_output d = true.
Proof.
  induction inputs as [|i inputs IH]; intros s.
  - exists []. split; [now rewrite app_nil_r | reflexivity].
  - change (run (i :: inputs) s) with (run inputs (loop i s)).
    destruct (IH (loop i s)) as (d2 & E2 & F2).
    destruct (loop_delta i s) as (d1 & E1 & F1).
    exists (d1 ++ d2). rewrite E2, E1, <- app_assoc. split; [reflexivity|].
    now rewrite forallb_app, F1, F2.
Qed.

Lemma loop_output_fixed_channels d :
  forallb loop_output d = true -> bfo_commands d = [] /\ clk2_commands d = [].
Proof.
  induction d as [|o d IH]; [now split|].
  cbn [forallb]. intros H. apply andb_true_iff in H as [Ho Hd].
  destruct (IH Hd) as [Hb Hc].
  unfold bfo_commands, clk2_commands in *. cbn [flat_map]. rewrite Hb, Hc.
  destruct o as [v [| |] | | | | | | ]; try discriminate Ho; now split.
Qed.

(** The trace [setup()] leaves behind, when it ends. *)
Lemma setup_trace display_ok i2c_found e s0 :
  setup display_ok i2c_found (power_on e) = Some s0 ->
  tx_mode s0 = false /\
  exists msg v n,
    trace s0 =
    [DigitalWrite PIN_TX_EN LOW; SerialPrintln "7MHz SSB Transceiver";
     SerialPrintln "Initializing..."; SerialPrintln msg;
     SetFreq v SI5351_CLK0; SerialPrint "VFO: "; SerialPrintNum n;
     SerialPrintln " kHz"; SetFreq 899850000 SI5351_CLK1;
     SerialPrintln "Si5351 initialized";
     Render (frequency s0) (step_size s0) false; SerialPrintln "Ready!"].
Proof.
  intros H. rewrite (setup_some _ _ _ _ H). clear H.
  destruct (loadSettings_shape
              (emit (SerialPrintln "Initializing...")
                 (emit (SerialPrintln "7MHz SSB Transceiver")
                    (emit (DigitalWrite PIN_TX_EN LOW) (power_on e)))))
    as (f & i & z & msg & ->).
  split; [reflexivity|].
  exists msg. do 2 eexists. reflexivity.
Qed.

(** X1. The fixed oscillator (BFO, CLK1) is commanded exactly once in every
    execution, by [setup()], with 8,998,500 Hz in 0.01 Hz units; neither
    the loop nor any handler commands it again, and the spare channel CLK2
    is never given a frequency. *)
Theorem bfo_commanded_once display_ok i2c_found e s0 inputs :
  setup display_ok i2c_found (power_on e) = Some s0 ->
  bfo_commands (trace (run inputs s0)) = [BFO_FREQ * 100] /\
  clk2_commands (trace (run inputs s0)) = [].
Proof.
  intros H.
  destruct (setup_trace _ _ _ _ H) as (_ & msg & v & n & E0).
  destruct (run_delta inputs s0) as (d & E & F).
  destruct (loop_output_fixed_channels d F) as [Hb Hc].
  rewrite E, E0. unfold bfo_commands, clk2_commands in *.
  rewrite !flat_map_app, Hb, Hc. split; reflexivity.
Qed.

Lemma bfo_commanded_once_witness :
  exists s0,
    setup true true (power_on ∅) = Some s0 /\
    bfo_commands
      (trace (run [mkLoopInput DIR_CW (mkSample LOW 100 100) (mkSample LOW 100 100);
                   idle 200] s0)) = [899850000].
Proof.
  eexists. split; [reflexivity|].
  apply (bfo_commanded_once true true ∅ _
           [mkLoopInput DIR_CW (mkSample LOW 100 100) (mkSample LOW 100 100);
            idle 200]).
  reflexivity.
Defined.

(** ** The transmit-enable pin *)

Lemma toggles_snoc n : forall b,
  toggles n b ++ [if Nat.even n then b else negb b] = toggles (S n) b.
Proof.
  induction n as [|n IH]; intros b; [reflexivity|].
  cbn [toggles app]. f_equal.
  rewrite Nat.even_succ, <- Nat.negb_even.
  specialize (IH (negb b)). cbn [toggles] in IH. rewrite <- IH. f_equal.
  destruct (Nat.even n), b; reflexivity.
Qed.

Lemma handleEncoder_no_pin_write r s :
  tx_enable_writes (trace (handleEncoder r s)) = tx_enable_writes (trace s).
Proof.
  destruct (handleEncoder_trace r s) as [-> | (v & n & ->)]; [reflexivity|].
  unfold tx_enable_writes. rewrite flat_map_app. cbn. now rewrite app_nil_r.
Qed.

Lemma handleEncoderSwitch_no_pin_write i s :
  tx_enable_writes (trace (handleEncoderSwitch i s)) = tx_enable_writes (trace s) /\
  tx_mode (handleEncoderSwitch i s) = tx_mode s.
Proof.
  destruct (handleEncoderSwitch_cases i s) as [-> | (_ & _ & _ & ->)];
    [now split|].
  destruct (set_last_sw_state_fields LOW (stepCycle (t_store i) s)) as [_ ->].
  destruct (set_last_sw_state_tuning LOW (stepCycle (t_store i) s)) as (_ & _ & _ & ->).
  split; [|exact (proj1 (proj2 (stepCycle_keeps (t_store i) s)))].
  rewrite stepCycle_trace. unfold tx_enable_writes. rewrite flat_map_app. cbn.
  now rewrite app_nil_r.
Qed.

(** An iteration writes the transmit-enable pin when, and only when, it
    changes [tx_mode], and writes the new mode. *)
Lemma loop_pin_write i s :
  (tx_mode (loop i s) = tx_mode s /\
   tx_enable_writes (trace (loop i s)) = tx_enable_writes (trace s)) \/
  (tx_mode (loop i s) = negb (tx_mode s) /\
   tx_enable_writes (trace (loop i s)) =
   tx_enable_writes (trace s) ++ [negb (tx_mode s)]).
Proof.
  rewrite loop_as_handlers.
  pose proof (handleEncoder_no_pin_write (enc i) s) as W1.
  destruct (handleEncoder_keeps (enc i) s) as (_ & _ & T1).
  set (s1 := handleEncoder (enc i) s) in *.
  pose proof (handlePTT_cases (ptt i) s1) as C2.
  set (s2 := handlePTT (ptt i) s1) in *.
  destruct (handleEncoderSwitch_no_pin_write (sw i) s2) as [W3 T3].
  set (s3 := handleEncoderSwitch (sw i) s2) in *.
  cbv zeta.
  assert (H : (tx_mode s3 = tx_mode s /\
               tx_enable_writes (trace s3) = tx_enable_writes (trace s)) \/
              (tx_mode s3 = negb (tx_mode s) /\
               tx_enable_writes (trace s3) =
               tx_enable_writes (trace s) ++ [negb (tx_mode s)])).
  { rewrite T3, W3. destruct C2 as [[T2 E2] | [T2 E2]]; [left | right];
      rewrite T2, E2, T1; split; try reflexivity; try exact W1.
    unfold tx_enable_writes in *. rewrite flat_map_app, W1. reflexivity. }
  destruct (display_update_needed s3); [|exact H].
  destruct (drawn_fields s3) as (_ & -> & _ & _ & ->).
  unfold tx_enable_writes in *. rewrite flat_map_app. cbn [flat_map app].
  rewrite app_nil_r. exact H.
Qed.

(** X2. The transmit-enable pin is first written LOW by [setup()]; after
    that every write is the opposite of the one before (no level is ever
    written twice in a row), and in every reachable state the last level
    written is the current [tx_mode] (HIGH while transmitting). *)
Theorem tx_enable_follows_mode display_ok i2c_found e s0 inputs :
  setup display_ok i2c_found (power_on e) = Some s0 ->
  exists n,
    tx_enable_writes (trace (run inputs s0)) = toggles (S n) LOW /\
    tx_mode (run inputs s0) = Nat.odd n.
Proof.
  intros H.
  destruct (setup_trace _ _ _ _ H) as (T0 & msg & v & k & E0).
  assert (I0 : exists n, tx_enable_writes (trace s0) = toggles (S n) LOW /\
                         tx_mode s0 = Nat.odd n).
  { exists 0%nat. rewrite E0, T0. split; reflexivity. }
  clear H T0 E0. revert s0 I0.
  induction inputs as [|i inputs IH]; intros s (n & W & T); [now exists n|].
  change (run (i :: inputs) s) with (run inputs (loop i s)).
  apply IH.
  destruct (loop_pin_write i s) as [[Tl Wl] | [Tl Wl]].
  - exists n. now rewrite Tl, Wl.
  - exists (S n). rewrite Tl, Wl, W, T, Nat.odd_succ, <- Nat.negb_odd. split; [|reflexivity].
    rewrite <- (toggles_snoc (S n) LOW), Nat.even_succ.
    destruct (Nat.odd n); reflexivity.
Qed.

Lemma tx_enable_follows_mode_witness :
  exists s0 n,
    setup true true (power_on ∅) = Some s0 /\
    let s := run [mkLoopInput DIR_NONE (mkSample LOW 100 100) (mkSample HIGH 100 100);
                  mkLoopInput DIR_NONE (mkSample HIGH 300 300) (mkSample HIGH 300 300);
                  mkLoopInput DIR_NONE (mkSample LOW 500 500) (mkSample HIGH 500 500)]
               s0 in
    tx_enable_writes (trace s) = toggles (S n) LOW /\ tx_mode s = Nat.odd n.
Proof.
  eexists.
  destruct (tx_enable_follows_mode true true ∅ _
              [mkLoopInput DIR_NONE (mkSample LOW 100 100) (mkSample HIGH 100 100);
               mkLoopInput DIR_NONE (mkSample HIGH 300 300) (mkSample HIGH 300 300);
               mkLoopInput DIR_NONE (mkSample LOW 500 500) (mkSample HIGH 500 500)]
              eq_refl) as (n & H).
  exists n. split; [reflexivity | exact H].
Defined.

(** ** What reaches the EEPROM *)

Lemma handleEncoderSwitch_released i s :
  level i = HIGH -> handleEncoderSwitch i s = set_last_sw_state HIGH s.
Proof.
  intros H. destruct (handleEncoderSwitch_cases i s) as [E | (C & _)].
  - now rewrite E, H.
  - rewrite H in C. discriminate C.
Qed.

Lemma loop_eeprom_without_press i s :
  level (sw i) = HIGH ->
  eeprom (loop i s) = eeprom s /\
  eeprom_writes (trace (loop i s)) = eeprom_writes (trace s).
Proof.
  intros Hsw. rewrite loop_as_handlers.
  destruct (handleEncoder_eeprom (enc i) s) as (E1 & _).
  pose proof (handleEncoder_trace (enc i) s) as T1.
  set (s1 := handleEncoder (enc i) s) in *.
  destruct (handlePTT_eeprom (ptt i) s1) as (E2 & _).
  pose proof (handlePTT_cases (ptt i) s1) as T2.
  set (s2 := handlePTT (ptt i) s1) in *.
  rewrite (handleEncoderSwitch_released (sw i) s2 Hsw). cbv zeta.
  assert (Hw : eeprom_writes (trace s2) = eeprom_writes (trace s)).
  { unfold eeprom_writes.
    destruct T2 as [[_ ->] | [_ ->]]; destruct T1 as [-> | (v & n & ->)];
      rewrite ?flat_map_app; cbn [flat_map app]; rewrite ?app_nil_r; reflexivity. }
  destruct (display_update_needed (set_last_sw_state HIGH s2)).
  - destruct (drawn_fields (set_last_sw_state HIGH s2)) as (-> & _ & _ & _ & ->).
    destruct (set_last_sw_state_rest HIGH s2) as (-> & _).
    destruct (set_last_sw_state_fields HIGH s2) as (_ & ->).
    split; [now rewrite E2, E1|].
    unfold eeprom_writes in *. rewrite flat_map_app. cbn [flat_map app].
    rewrite app_nil_r. exact Hw.
  - destruct (set_last_sw_state_rest HIGH s2) as (-> & _).
    destruct (set_last_sw_state_fields HIGH s2) as (_ & ->).
    split; [now rewrite E2, E1 | exact Hw].
Qed.

(** X3. Tuning and PTT activity never reach the EEPROM: over any number of
    iterations in which the encoder switch is not pressed, whatever the
    encoder and the PTT line do, no [EEPROM.put] is made and the EEPROM
    keeps its contents, so [loadSettings()] after a power cycle returns what
    it would have returned before the tuning. *)
Theorem tuning_is_not_persisted (s : State) (inputs : list LoopInput) :
  Forall (fun i => level (sw i) = HIGH) inputs ->
  eeprom (run inputs s) = eeprom s /\
  eeprom_writes (trace (run inputs s)) = eeprom_writes (trace s) /\
  loadSettings (power_on (eeprom (run inputs s))) = loadSettings (power_on (eeprom s)).
Proof.
  intros H.
  assert (G : eeprom (run inputs s) = eeprom s /\
              eeprom_writes (trace (run inputs s)) = eeprom_writes (trace s)).
  { revert s. induction H as [|i inputs Hi _ IH]; intros s; [now split|].
    change (run (i :: inputs) s) with (run inputs (loop i s)).
    destruct (IH (loop i s)) as [-> ->]. now apply loop_eeprom_without_press. }
  destruct G as [Ge Gw]. split; [exact Ge|]. split; [exact Gw|]. now rewrite Ge.
Qed.

Lemma tuning_is_not_persisted_witness :
  let s := power_on (eeprom_record 7050000 1 EEPROM_MAGIC_VALUE) in
  let inputs := [mkLoopInput DIR_CW (mkSample LOW 100 100) (mkSample HIGH 100 100);
                 mkLoopInput DIR_CW (mkSample LOW 110 110) (mkSample HIGH 110 110)] in
  frequency (run inputs s) = 7102000 /\
  frequency (loadSettings (power_on (eeprom (run inputs s)))) = 7050000.
Proof.
  intros s inputs.
  destruct (tuning_is_not_persisted s inputs) as (_ & _ & E).
  - repeat constructor.
  - split; [reflexivity|]. rewrite E. reflexivity.
Defined.

Lemma stepCycle_outside_record t s a :
  in_record a = false -> eeprom (stepCycle t s) !! a = eeprom s !! a.
Proof.
  intros H. rewrite stepCycle_eeprom.
  unfold in_record in H. apply orb_false_iff in H as [H1 H2].
  apply andb_false_iff in H1. apply andb_false_iff in H2.
  rewrite Z.leb_gt in H1, H2. rewrite !Z.leb_gt in H1, H2.
  unfold EEPROM_MAGIC_ADDR, EEPROM_STEP_ADDR, EEPROM_FREQ_ADDR.
  rewrite !EEPROM_write_bytes_outside; rewrite ?length_le_split; try reflexivity; lia.
Qed.

Lemma loop_outside_record i s a :
  in_record a = false -> eeprom (loop i s) !! a = eeprom s !! a.
Proof.
  intros H. rewrite loop_as_handlers.
  destruct (handleEncoder_eeprom (enc i) s) as (E1 & _).
  set (s1 := handleEncoder (enc i) s) in *.
  destruct (handlePTT_eeprom (ptt i) s1) as (E2 & _).
  set (s2 := handlePTT (ptt i) s1) in *.
  assert (E3 : eeprom (handleEncoderSwitch (sw i) s2) !! a = eeprom s2 !! a).
  { destruct (handleEncoderSwitch_cases (sw i) s2) as [-> | (_ & _ & _ & ->)].
    - reflexivity.
    - destruct (set_last_sw_state_rest LOW (stepCycle (t_store (sw i)) s2)) as (-> & _).
      now apply stepCycle_outside_record. }
  set (s3 := handleEncoderSwitch (sw i) s2) in *. cbv zeta.
  destruct (display_update_needed s3).
  - destruct (drawn_fields s3) as (-> & _). now rewrite E3, E2, E1.
  - now rewrite E3, E2, E1.
Qed.

(** X4. The sketch only ever writes the seven bytes of its settings record
    (addresses 0..3, 4 and 8..9): every other EEPROM cell, the unused
    addresses 5..7 between step index and magic word included, holds after
    any number of loop iterations what it held before. *)
Theorem eeprom_writes_stay_in_record (s : State) (inputs : list LoopInput) (a : Z) :
  in_record a = false -> eeprom (run inputs s) !! a = eeprom s !! a.
Proof.
  intros H. revert s. induction inputs as [|i inputs IH]; intros s; [reflexivity|].
  change (run (i :: inputs) s) with (run inputs (loop i s)).
  rewrite IH. now apply loop_outside_record.
Qed.

Lemma eeprom_writes_stay_in_record_witness :
  let s := power_on (<[6 := byte.of_Z 42]> ∅) in
  let inputs := [mkLoopInput DIR_CW (mkSample LOW 100 100) (mkSample LOW 100 100)] in
  step_index (run inputs s) = 3 /\
  eeprom (run inputs s) !! 6 = Some (byte.of_Z 42) /\
  eeprom (run inputs s) !! 10 = None.
Proof.
  intros s inputs. split; [reflexivity|]. split.
  - rewrite (eeprom_writes_stay_in_record s inputs 6); reflexivity.
  - rewrite (eeprom_writes_stay_in_record s inputs 10); reflexivity.
Defined.

Lemma record_read_back (e : gmap Z byte) f i m :
  let e' := EEPROM_write_bytes
              (EEPROM_write_bytes
                 (EEPROM_write_bytes e EEPROM_FREQ_ADDR (le_split 4 f))
                 EEPROM_STEP_ADDR (le_split 1 i))
              EEPROM_MAGIC_ADDR (le_split 2 m) in
  EEPROM_get 2 e' EEPROM_MAGIC_ADDR = m mod 2 ^ 16 /\
  EEPROM_get 4 e' EEPROM_FREQ_ADDR = f mod 2 ^ 32 /\
  EEPROM_get 1 e' EEPROM_STEP_ADDR = i mod 2 ^ 8.
Proof.
  intros e'. subst e'.
  unfold EEPROM_MAGIC_ADDR, EEPROM_FREQ_ADDR, EEPROM_STEP_ADDR.
  split; [|split].
  - rewrite EEPROM_get_put. reflexivity.
  - rewrite !EEPROM_get_put_other by (simpl; lia).
    rewrite EEPROM_get_put. reflexivity.
  - rewrite EEPROM_get_put_other by (simpl; lia).
    rewrite EEPROM_get_put. reflexivity.
Qed.

(** X5. An accepted press of the encoder switch saves the frequency of that
    moment together with the new step: if the frequency is in the band, the
    state [loadSettings()] builds after the next power-on has the frequency,
    the step index and the step size the sketch had right after the press. *)
Theorem press_persists_frequency_and_step (s : State) (press : Sample) :
  in_band (frequency s) ->
  level press = LOW -> last_sw_state s = HIGH ->
  sub32 (t_check press) (last_enc_sw_time s) > debounce_delay ->
  let s1 := handleEncoderSwitch press s in
  let b := loadSettings (power_on (eeprom s1)) in
  frequency s1 = frequency s /\
  step_index s1 = (step_index s + 1) mod num_steps /\
  frequency b = frequency s1 /\
  step_index b = step_index s1 /\
  step_size b = step_size s1.
Proof.
  intros Hb Hl Hs Ht s1 b.
  assert (E1 : s1 = set_last_sw_state LOW (stepCycle (t_store press) s))
    by (apply handleEncoderSwitch_press; assumption).
  set (c := stepCycle (t_store press) s) in *.
  assert (Ef : frequency s1 = frequency s).
  { rewrite E1. destruct (set_last_sw_state_tuning LOW c) as (-> & _).
    exact (proj1 (stepCycle_keeps (t_store press) s)). }
  assert (Ei : step_index s1 = step_index c).
  { rewrite E1. exact (proj1 (set_last_sw_state_fields LOW c)). }
  assert (Ez : step_size s1 = step_size c).
  { rewrite E1. exact (proj1 (proj2 (set_last_sw_state_tuning LOW c))). }
  assert (Ee : eeprom s1 = eeprom c).
  { rewrite E1. exact (proj1 (set_last_sw_state_rest LOW c)). }
  pose proof (stepCycle_index_in_range (t_store press) s) as Hi. fold c in Hi.
  assert (Hnum : num_steps = 4) by reflexivity.
  split; [exact Ef|].
  split; [rewrite Ei; apply stepCycle_step_index|].
  subst b. rewrite Ee.
  destruct (record_read_back (eeprom s) (wrap32 (frequency s)) (step_index c)
              (wrap16 EEPROM_MAGIC_VALUE)) as (Hm & Hf & Hx).
  unfold c in Hm, Hf, Hx at 1. rewrite <- stepCycle_eeprom in Hm, Hf, Hx. fold c in Hm, Hf, Hx.
  unfold in_band, FREQ_MIN, FREQ_MAX in Hb.
  assert (Hm' : EEPROM_get 2 (eeprom (power_on (eeprom c))) EEPROM_MAGIC_ADDR =
                EEPROM_MAGIC_VALUE).
  { cbn [eeprom power_on]. rewrite Hm. reflexivity. }
  destruct (loadSettings_accept (power_on (eeprom c)) Hm') as (Lf & Li & Lz & _).
  cbn [eeprom power_on] in Lf, Li.
  rewrite Hf in Lf. rewrite Hx in Li.
  unfold wrap32 in Lf. rewrite Z.mod_mod in Lf by discriminate.
  rewrite (Z.mod_small (frequency s)) in Lf by lia.
  rewrite (Z.mod_small (step_index c)) in Li by lia.
  assert (Lf' : frequency (loadSettings (power_on (eeprom c))) = frequency s).
  { rewrite Lf. unfold FREQ_MIN, FREQ_MAX.
    destruct (Z.geb_spec (frequency s) 7000000); [|lia].
    destruct (Z.leb_spec (frequency s) 7200000); [reflexivity | lia]. }
  assert (Li' : step_index (loadSettings (power_on (eeprom c))) = step_index c).
  { rewrite Li, Hnum. destruct (Z.geb_spec (step_index c) 4); [lia | reflexivity]. }
  split; [now rewrite Lf', Ef|]. split; [now rewrite Li', Ei|].
  rewrite Lz, Li', Ez. symmetry. apply stepCycle_step_size.
Qed.

Lemma press_persists_frequency_and_step_witness :
  let s := tune [DIR_CW; DIR_CW] (power_on ∅) in
  let s1 := handleEncoderSwitch (mkSample LOW 100 100) s in
  let b := loadSettings (power_on (eeprom s1)) in
  frequency b = 7102000 /\ step_index b = 3 /\ step_size b = 10000.
Proof.
  intros s s1 b.
  destruct (press_persists_frequency_and_step s (mkSample LOW 100 100))
    as (_ & _ & Hf & Hi & Hz).
  - unfold in_band; vm_compute; split; discriminate.
  - reflexivity.
  - reflexivity.
  - vm_compute. reflexivity.
  - fold s1 b in Hf, Hi, Hz. split; [rewrite Hf; reflexivity|].
    split; [rewrite Hi; reflexivity | rewrite Hz; reflexivity].
Defined.

(** ** More on the two debounced lines *)

Lemma handleEncoderSwitch_remembers i s :
  last_sw_state (handleEncoderSwitch i s) = level i.
Proof. reflexivity. Qed.

Lemma handleEncoderSwitch_held j s :
  last_sw_state s = LOW -> level j = LOW -> handleEncoderSwitch j s = s.
Proof.
  intros Hs Hj. destruct (handleEncoderSwitch_cases j s) as [E | (_ & C & _)].
  - rewrite E, Hj, <- Hs. apply set_last_sw_state_same.
  - rewrite Hs in C. discriminate C.
Qed.

Lemma sw_samples_held held : forall s,
  last_sw_state s = LOW -> Forall (fun j => level j = LOW) held ->
  sw_samples held s = s.
Proof.
  induction held as [|j held IH]; intros s Hs H; [reflexivity|].
  inversion H as [|? ? Hj Hrest]; subst.
  change (sw_samples (j :: held) s) with (sw_samples held (handleEncoderSwitch j s)).
  rewrite (handleEncoderSwitch_held j s Hs Hj). now apply IH.
Qed.

(** X6. The encoder switch has no auto-repeat and acts on the press only:
    however long the button is then held (samples at LOW, at any times),
    the state stays what the first LOW sample made it, so one press gives
    at most one step change and one save; a sample at HIGH (the release)
    never changes the step. *)
Theorem switch_hold_does_not_repeat (s : State) (press : Sample) (held : list Sample) :
  level press = LOW -> Forall (fun j => level j = LOW) held ->
  let s' := sw_samples (press :: held) s in
  s' = handleEncoderSwitch press s /\
  (saves (trace s') = saves (trace s) \/ saves (trace s') = S (saves (trace s))) /\
  (forall i t, level i = HIGH ->
     handleEncoderSwitch i t = set_last_sw_state HIGH t).
Proof.
  intros Hl Hh s'.
  assert (E : s' = handleEncoderSwitch press s).
  { unfold s'.
    change (sw_samples (press :: held) s)
      with (sw_samples held (handleEncoderSwitch press s)).
    apply sw_samples_held; [|exact Hh].
    now rewrite handleEncoderSwitch_remembers. }
  split; [exact E|]. split; [|exact handleEncoderSwitch_released].
  rewrite E.
  destruct (handleEncoderSwitch_cases press s) as [-> | (_ & _ & _ & ->)].
  - left. reflexivity.
  - right. destruct (set_last_sw_state_fields LOW (stepCycle (t_store press) s)) as [_ ->].
    apply stepCycle_saves.
Qed.

Lemma switch_hold_does_not_repeat_witness :
  let held := [mkSample LOW 200 200; mkSample LOW 5000 5000; mkSample LOW 90000 90000] in
  let s' := sw_samples (mkSample LOW 100 100 :: held) (power_on ∅) in
  step_index s' = 3 /\ saves (trace s') = 1%nat.
Proof.
  intros held s'.
  destruct (switch_hold_does_not_repeat (power_on ∅) (mkSample LOW 100 100) held)
    as (E & _ & _).
  - reflexivity.
  - repeat constructor.
  - fold s' in E. rewrite E. split; reflexivity.
Defined.

Lemma sub32_wrap T d : sub32 (wrap32 (T + d)) (wrap32 T) = d mod 2 ^ 32.
Proof.
  unfold sub32, wrap32. rewrite <- Zminus_mod. f_equal. lia.
Qed.

(** X7. Debouncing survives the wrap-around of [millis()] every 2^32 ms: if
    the last accepted press was at time T and a press is sampled d ms later
    (both read modulo 2^32), the press is accepted exactly when
    d mod 2^32 > 50.  So right after the counter wraps a press is still
    judged by the true elapsed time; only a press that comes a multiple of
    2^32 ms (49.7 days) plus at most 50 ms after the last one is dropped. *)
Theorem debounce_across_millis_wrap (s : State) (i : Sample) (T d : Z) :
  level i = LOW -> last_sw_state s = HIGH ->
  last_enc_sw_time s = wrap32 T -> t_check i = wrap32 (T + d) ->
  (d mod 2 ^ 32 > debounce_delay ->
   handleEncoderSwitch i s = set_last_sw_state LOW (stepCycle (t_store i) s)) /\
  (d mod 2 ^ 32 <= debounce_delay ->
   handleEncoderSwitch i s = set_last_sw_state LOW s).
Proof.
  intros Hl Hs HT Ht.
  assert (E : sub32 (t_check i) (last_enc_sw_time s) = d mod 2 ^ 32)
    by (rewrite Ht, HT; apply sub32_wrap).
  split; intros H.
  - apply handleEncoderSwitch_press; try assumption. now rewrite E.
  - rewrite <- Hl. apply handleEncoderSwitch_in_window. now rewrite E.
Qed.

Lemma debounce_across_millis_wrap_witness :
  let s := set_last_enc_sw_time (2 ^ 32 - 20) (power_on ∅) in
  step_index (handleEncoderSwitch (mkSample LOW 40 40) s) = 3 /\
  step_index (handleEncoderSwitch (mkSample LOW 10 10) s) = 2.
Proof.
  intros s. split.
  - pose proof (debounce_across_millis_wrap s (mkSample LOW 40 40) (2 ^ 32 - 20) 60
                  eq_refl eq_refl eq_refl eq_refl) as [H _].
    rewrite H; [reflexivity | vm_compute; reflexivity].
  - pose proof (debounce_across_millis_wrap s (mkSample LOW 10 10) (2 ^ 32 - 20) 30
                  eq_refl eq_refl eq_refl eq_refl) as [_ H].
    rewrite H; [reflexivity | vm_compute; discriminate].
Defined.

(** X8. An accepted change of the PTT line makes [tx_mode] follow the line
    (transmit exactly when the line is LOW), stores the time and the level,
    and writes the transmit-enable pin only if the mode changed: an accepted
    release while transmitting writes LOW once, an accepted change that
    finds the mode already right writes nothing. *)
Theorem ptt_mode_follows_line (s : State) (i : Sample) :
  level i <> last_ptt_state s ->
  sub32 (t_check i) (last_ptt_time s) > debounce_delay ->
  let s' := handlePTT i s in
  tx_mode s' = eqb (level i) LOW /\
  last_ptt_time s' = t_store i /\
  last_ptt_state s' = level i /\
  tx_enable_writes (trace s') =
    tx_enable_writes (trace s)
    ++ (if eqb (tx_mode s) (eqb (level i) LOW) then [] else [eqb (level i) LOW]) /\
  display_update_needed s' =
    (if eqb (tx_mode s) (eqb (level i) LOW) then display_update_needed s else true).
Proof.
  intros Hne Ht s'. subst s'. unfold handlePTT.
  destruct (eqb_spec (level i) (last_ptt_state s)) as [C | _]; [contradiction|].
  rewrite (Zgtb_true_gt _ _ Ht). cbn [negb tx_mode set_last_ptt_time].
  destruct (eqb_spec (eqb (level i) LOW) (tx_mode s)) as [E | Hn]; cbn [negb].
  - rewrite <- E, eqb_reflx. cbn. rewrite app_nil_r. repeat split. now rewrite E.
  - assert (En : eqb (tx_mode s) (eqb (level i) LOW) = false)
      by (destruct (tx_mode s), (eqb (level i) LOW); simpl; congruence).
    rewrite En. destruct s; cbn. unfold tx_enable_writes.
    rewrite <- app_assoc, flat_map_app. cbn.
    destruct (eqb (level i) LOW); repeat split.
Qed.

Lemma ptt_mode_follows_line_witness :
  let s := handlePTT (mkSample LOW 100 100) (power_on ∅) in
  let s' := handlePTT (mkSample HIGH 400 400) s in
  tx_mode s = true /\ tx_mode s' = false /\
  tx_enable_writes (trace s') = [HIGH; LOW].
Proof.
  intros s s'. split; [reflexivity|].
  destruct (ptt_mode_follows_line s (mkSample HIGH 400 400)) as (H1 & _ & _ & H4 & _).
  - vm_compute. discriminate.
  - vm_compute. reflexivity.
  - fold s' in H1, H4. split; [exact H1 | exact H4].
Defined.

(** X9. Tuning is not locked while transmitting: [handleEncoder()] never
    looks at [tx_mode], so a tick has the same effect on frequency,
    synthesizer and dirty flag in transmit as in receive. *)
Theorem tuning_ignores_tx_mode (tx : bool) (r : Z) (s : State) :
  handleEncoder r (set_tx_mode tx s) = set_tx_mode tx (handleEncoder r s).
Proof.
  unfold handleEncoder.
  change (frequency (set_tx_mode tx s)) with (frequency s).
  change (step_size (set_tx_mode tx s)) with (step_size s).
  destruct (r =? DIR_CW).
  - destruct (add64 (frequency s) (step_size s) <=? FREQ_MAX); reflexivity.
  - destruct (r =? DIR_CCW); [|reflexivity].
    destruct (frequency s >=? add64 (step_size s) FREQ_MIN); reflexivity.
Qed.

(** ** More on rendering *)

Lemma handleEncoder_flag r s :
  display_update_needed s = true -> display_update_needed (handleEncoder r s) = true.
Proof.
  intros H. unfold handleEncoder.
  destruct (r =? DIR_CW).
  - now destruct (add64 (frequency s) (step_size s) <=? FREQ_MAX).
  - destruct (r =? DIR_CCW); [|exact H].
    now destruct (frequency s >=? add64 (step_size s) FREQ_MIN).
Qed.

Lemma handlePTT_flag i s :
  display_update_needed s = true -> display_update_needed (handlePTT i s) = true.
Proof.
  intros H. unfold handlePTT.
  destruct (negb (eqb (level i) (last_ptt_state s))); [|exact H].
  destruct (sub32 (t_check i) (last_ptt_time s) >? debounce_delay); [|exact H].
  cbn [tx_mode set_last_ptt_time].
  now destruct (negb (eqb (eqb (level i) LOW) (tx_mode s))).
Qed.

Lemma handleEncoderSwitch_flag i s :
  display_update_needed s = true ->
  display_update_needed (handleEncoderSwitch i s) = true.
Proof.
  intros H. destruct (handleEncoderSwitch_cases i s) as [-> | (_ & _ & _ & ->)].
  - exact H.
  - destruct (set_last_sw_state_tuning LOW (stepCycle (t_store i) s)) as (_ & _ & -> & _).
    apply stepCycle_marks_dirty.
Qed.

Lemma handlers_draw_nothing i s :
  renders (trace (handleEncoderSwitch (sw i) (handlePTT (ptt i)
            (handleEncoder (enc i) s)))) = renders (trace s).
Proof.
  destruct (handleEncoder_delta (enc i) s) as (d1 & E1 & _).
  pose proof (handleEncoder_trace (enc i) s) as T1.
  set (s1 := handleEncoder (enc i) s) in *.
  pose proof (handlePTT_cases (ptt i) s1) as T2.
  set (s2 := handlePTT (ptt i) s1) in *.
  assert (R3 : renders (trace (handleEncoderSwitch (sw i) s2)) = renders (trace s2)).
  { destruct (handleEncoderSwitch_cases (sw i) s2) as [-> | (_ & _ & _ & ->)];
      [reflexivity|].
    destruct (set_last_sw_state_fields LOW (stepCycle (t_store (sw i)) s2)) as [_ ->].
    rewrite stepCycle_trace. unfold renders. rewrite flat_map_app. cbn.
    now rewrite app_nil_r. }
  rewrite R3. unfold renders.
  destruct T2 as [[_ ->] | [_ ->]]; destruct T1 as [-> | (v & n & ->)];
    rewrite ?flat_map_app; cbn [flat_map app]; rewrite ?app_nil_r; reflexivity.
Qed.

(** X10. Every iteration of [loop()] ends with the dirty flag cleared and
    draws at most one frame, after the three handlers have run, so the frame
    shows the state as the iteration leaves it, with all changes of the
    iteration together; an iteration entered with the flag set always draws. *)
Theorem one_frame_per_iteration (i : LoopInput) (s : State) :
  display_update_needed (loop i s) = false /\
  (renders (trace (loop i s)) = renders (trace s) \/
   renders (trace (loop i s)) = renders (trace s) ++ [snapshot (loop i s)]) /\
  (display_update_needed s = true ->
   renders (trace (loop i s)) = renders (trace s) ++ [snapshot (loop i s)]).
Proof.
  destruct (loop_render i s) as [Hc Ht]. split; [exact Hc|].
  pose proof (handlers_draw_nothing i s) as Hr.
  assert (Hf : display_update_needed s = true ->
               display_update_needed
                 (handleEncoderSwitch (sw i) (handlePTT (ptt i)
                    (handleEncoder (enc i) s))) = true).
  { intros H. now apply handleEncoderSwitch_flag, handlePTT_flag, handleEncoder_flag. }
  assert (Hs : display_update_needed
                 (handleEncoderSwitch (sw i) (handlePTT (ptt i)
                    (handleEncoder (enc i) s))) = true ->
               snapshot (loop i s) =
               snapshot (handleEncoderSwitch (sw i) (handlePTT (ptt i)
                           (handleEncoder (enc i) s)))).
  { intros H. rewrite loop_as_handlers. cbv zeta. rewrite H. reflexivity. }
  set (s3 := handleEncoderSwitch (sw i) (handlePTT (ptt i) (handleEncoder (enc i) s))) in *.
  rewrite Ht.
  destruct (display_update_needed s3) eqn:E.
  - assert (G : renders (trace s3 ++ [Render (frequency s3) (step_size s3) (tx_mode s3)]) =
                renders (trace s) ++ [snapshot (loop i s)]).
    { rewrite (Hs eq_refl). unfold renders in *. now rewrite flat_map_app, Hr. }
    split; [right; exact G | intros _; exact G].
  - split; [left; exact Hr|]. intros H. specialize (Hf H). discriminate Hf.
Qed.

Lemma loop_keeps_display_current i s :
  in_band (frequency s) -> step_inv s ->
  (exists fr, renders (trace s) = fr ++ [snapshot s]) ->
  exists fr, renders (trace (loop i s)) = fr ++ [snapshot (loop i s)].
Proof.
  intros Hb Hs (fr & Hfr).
  destruct (loop_render i s) as [_ Ht].
  pose proof (handlers_draw_nothing i s) as Hr.
  destruct (handleEncoder_effect (enc i) s Hb Hs) as (_ & C1).
  destruct (handleEncoder_keeps (enc i) s) as (Z1 & I1 & T1).
  destruct (handleEncoder_inv (enc i) s Hb Hs) as [_ Hs1].
  pose proof (handleEncoder_flag (enc i) s) as M1.
  set (s1 := handleEncoder (enc i) s) in *.
  destruct (handlePTT_effect (ptt i) s1) as (_ & C2).
  destruct (handlePTT_keeps_tuning (ptt i) s1) as (F2 & I2 & Z2).
  pose proof (handlePTT_flag (ptt i) s1) as M2.
  set (s2 := handlePTT (ptt i) s1) in *.
  assert (Hs2 : step_inv s2) by (unfold step_inv; now rewrite I2, Z2).
  destruct (handleEncoderSwitch_effect (sw i) s2 Hs2) as (_ & T3 & C3).
  destruct (handleEncoderSwitch_inv (sw i) s2 Hs2) as [F3 _].
  pose proof (handleEncoderSwitch_flag (sw i) s2) as M3.
  set (s3 := handleEncoderSwitch (sw i) s2) in *.
  assert (Hsnap : snapshot (loop i s) = snapshot s3).
  { rewrite loop_as_handlers. cbv zeta. fold s1 s2 s3.
    now destruct (display_update_needed s3). }
  rewrite Hsnap, Ht.
  destruct (display_update_needed s3) eqn:E3.
  - exists (renders (trace s3)). unfold renders. now rewrite flat_map_app.
  - exists fr. rewrite Hr, Hfr. f_equal. f_equal. unfold snapshot.
    destruct C3 as [[D3 X3] | [D3 _]]; [|congruence].
    destruct (display_update_needed s2) eqn:E2; [specialize (M3 eq_refl); congruence|].
    destruct C2 as [[D2 X2] | [D2 _]]; [|congruence].
    destruct (display_update_needed s1) eqn:E1; [specialize (M2 eq_refl); congruence|].
    destruct C1 as [[D1 X1] | [D1 _]]; [|congruence].
    congruence.
Qed.

(** X11. The display is never left stale: after [setup()] and after every
    iteration of [loop()], the last frame drawn shows the current frequency,
    step size and transmit flag (no change is ever missed, whatever the
    EEPROM held and whatever happens at the inputs). *)
Theorem display_is_never_stale display_ok i2c_found e s0 inputs :
  setup display_ok i2c_found (power_on e) = Some s0 ->
  exists frames,
    renders (trace (run inputs s0)) = frames ++ [snapshot (run inputs s0)].
Proof.
  intros H.
  destruct (setup_inv _ _ _ _ H) as [Hb Hs].
  assert (H0 : exists fr, renders (trace s0) = fr ++ [snapshot s0]).
  { destruct (setup_trace _ _ _ _ H) as (T0 & msg & v & n & E0).
    exists []. rewrite E0. unfold snapshot. rewrite T0. reflexivity. }
  clear H. revert s0 Hb Hs H0.
  induction inputs as [|i inputs IH]; intros s Hb Hs H0; [exact H0|].
  change (run (i :: inputs) s) with (run inputs (loop i s)).
  destruct (loop_inv i s Hb Hs) as [Hb' Hs'].
  apply IH; try assumption. now apply loop_keeps_display_current.
Qed.

Lemma display_is_never_stale_witness :
  exists s0 frames,
    setup true true (power_on ∅) = Some s0 /\
    renders (trace (run [mkLoopInput DIR_CW (mkSample LOW 100 100) (mkSample LOW 100 100);
                         idle 200] s0)) =
    frames ++ [snapshot (run [mkLoopInput DIR_CW (mkSample LOW 100 100)
                                (mkSample LOW 100 100); idle 200] s0)] /\
    snapshot (run [mkLoopInput DIR_CW (mkSample LOW 100 100) (mkSample LOW 100 100);
                   idle 200] s0) = (7101000, 10000, false).
Proof.
  eexists.
  destruct (display_is_never_stale true true ∅ _
              [mkLoopInput DIR_CW (mkSample LOW 100 100) (mkSample LOW 100 100);
               idle 200] eq_refl) as (frames & H).
  exists frames. split; [reflexivity|]. split; [exact H|].
  vm_compute. reflexivity.
Defined.

Lemma handleEncoder_last_digit r s :
  in_band (frequency s) -> step_inv s ->
  frequency (handleEncoder r s) mod 10 = frequency s mod 10.
Proof.
  intros Hb Hs.
  assert (Hz : step_size s mod 10 = 0)
    by (destruct (step_inv_cases s Hs) as [Z | [Z | [Z | Z]]]; rewrite Z; reflexivity).
  destruct (Z.eq_dec r DIR_CW) as [-> | Hcw].
  { destruct (handleEncoder_cw s Hb Hs) as [[_ E] | [_ E]]; rewrite E; [|reflexivity].
    rewrite frequency_after_update, Zplus_mod, Hz, Z.add_0_r.
    apply Z.mod_mod. discriminate. }
  destruct (Z.eq_dec r DIR_CCW) as [-> | Hccw].
  { destruct (handleEncoder_ccw s Hb Hs) as [[_ E] | [_ E]]; rewrite E; [|reflexivity].
    rewrite frequency_after_update, Zminus_mod, Hz, Z.sub_0_r.
    apply Z.mod_mod. discriminate. }
  now rewrite handleEncoder_other.
Qed.

(** X12. Whatever the EEPROM holds at power-on and whatever happens at the
    encoder, the PTT line and the switch, every state the sketch reaches has
    its frequency in [FREQ_MIN, FREQ_MAX], its step index inside the step
    table and its step size equal to the table entry at that index; the
    frequency differs from the one [setup()] started with by a multiple of
    10 Hz. *)
Theorem reachable_states_are_valid display_ok i2c_found e s0 inputs :
  setup display_ok i2c_found (power_on e) = Some s0 ->
  let s := run inputs s0 in
  in_band (frequency s) /\
  0 <= step_index s < num_steps /\
  step_size s = step_sizes_at (step_index s) /\
  frequency s mod 10 = frequency s0 mod 10.
Proof.
  intros H s.
  destruct (setup_inv _ _ _ _ H) as [Hb Hs].
  destruct (run_inv inputs s0 Hb Hs) as [Hb' [Hi Hz]].
  split; [exact Hb'|]. split; [exact Hi|]. split; [exact Hz|].
  subst s. clear H Hb' Hi Hz. revert s0 Hb Hs.
  induction inputs as [|i inputs IH]; intros s Hb Hs; [reflexivity|].
  change (run (i :: inputs) s) with (run inputs (loop i s)).
  destruct (loop_inv i s Hb Hs) as [Hb' Hs'].
  rewrite (IH (loop i s) Hb' Hs').
  assert (E : frequency (loop i s) = frequency (handleEncoder (enc i) s)).
  { rewrite loop_as_handlers. cbv zeta.
    destruct (handleEncoder_inv (enc i) s Hb Hs) as [_ Hs1].
    set (s1 := handleEncoder (enc i) s) in *.
    destruct (handlePTT_keeps_tuning (ptt i) s1) as (F2 & I2 & Z2).
    set (s2 := handlePTT (ptt i) s1) in *.
    assert (Hs2 : step_inv s2) by (unfold step_inv; now rewrite I2, Z2).
    destruct (handleEncoderSwitch_inv (sw i) s2 Hs2) as [F3 _].
    set (s3 := handleEncoderSwitch (sw i) s2) in *.
    destruct (display_update_needed s3).
    - destruct (drawn_fields s3) as (_ & _ & -> & _). now rewrite F3, F2.
    - now rewrite F3, F2. }
  rewrite E. now apply handleEncoder_last_digit.
Qed.

Lemma reachable_states_are_valid_witness :
  exists s0,
    setup true true (power_on (eeprom_record 7123456 0 EEPROM_MAGIC_VALUE)) = Some s0 /\
    let s := run [mkLoopInput DIR_CW (mkSample HIGH 100 100) (mkSample LOW 100 100);
                  mkLoopInput DIR_CCW (mkSample HIGH 200 200) (mkSample HIGH 200 200)]
               s0 in
    in_band (frequency s) /\ frequency s mod 10 = 6.
Proof.
  eexists. split; [reflexivity|].
  destruct (reachable_states_are_valid true true
              (eeprom_record 7123456 0 EEPROM_MAGIC_VALUE) _
              [mkLoopInput DIR_CW (mkSample HIGH 100 100) (mkSample LOW 100 100);
               mkLoopInput DIR_CCW (mkSample HIGH 200 200) (mkSample HIGH 200 200)]
              eq_refl) as (Hb & _ & _ & Hm).
  split; [exact Hb | exact Hm].
Defined.

(** ** The frequency on the display *)

Lemma string_append_cons x a b :
  String.append (String x a) b = String x (String.append a b).
Proof. reflexivity. Qed.

Lemma string_append_assoc a : forall b c,
  String.append (String.append a b) c = String.append a (String.append b c).
Proof.
  induction a as [|x a IH]; intros b c; [reflexivity|].
  rewrite !string_append_cons. f_equal. apply IH.
Qed.

Lemma string_length_append a : forall b,
  String.length (String.append a b) = (String.length a + String.length b)%nat.
Proof.
  induction a as [|x a IH]; intros b; [reflexivity|].
  rewrite string_append_cons. cbn [String.length]. now rewrite IH.
Qed.

(** Two texts that start with pieces of the same length agree piece by
    piece. *)
Lemma string_append_inj a : forall a' b b',
  String.length a = String.length a' ->
  String.append a b = String.append a' b' -> a = a' /\ b = b'.
Proof.
  induction a as [|x a IH]; intros [|x' a'] b b' Hl H; try discriminate Hl.
  - now split.
  - rewrite !string_append_cons in H. injection H as -> H. injection Hl as Hl.
    destruct (IH a' b b' Hl H) as [-> ->]. now split.
Qed.

Lemma string_append_nil_l a : String.append EmptyString a = a.
Proof. reflexivity. Qed.

Lemma string_append_nil_r a : String.append a EmptyString = a.
Proof.
  induction a as [|x a IH]; [reflexivity|].
  rewrite string_append_cons. now rewrite IH.
Qed.

Lemma printed_text_cons o l :
  printed_text (o :: l) = String.append (op_text o) (printed_text l).
Proof. reflexivity. Qed.

Lemma printed_text_nil : printed_text [] = EmptyString.
Proof. reflexivity. Qed.

(** Brings a text built from pieces into one shape: appends nested to the
    right, literal characters in front. *)
Ltac text_normal :=
  cbn [app]; rewrite ?printed_text_cons, ?printed_text_nil; cbn [op_text];
  rewrite ?string_append_assoc, ?string_append_nil_r;
  rewrite ?string_append_cons, ?string_append_nil_l.

Lemma printed_text_app a b :
  printed_text (a ++ b) = String.append (printed_text a) (printed_text b).
Proof.
  induction a as [|o a IH]; [reflexivity|].
  cbn [app printed_text fold_right]. fold (printed_text (a ++ b)).
  fold (printed_text a). rewrite IH. now rewrite string_append_assoc.
Qed.

Lemma read_digits_app a : forall acc b,
  read_digits acc (String.append a b) = read_digits (read_digits acc a) b.
Proof.
  induction a as [|c a IH]; intros acc b; [reflexivity|].
  rewrite string_append_cons. cbn [read_digits].
  destruct ((48 <=? Z.of_nat (nat_of_ascii c)) && (Z.of_nat (nat_of_ascii c) <=? 57));
    apply IH.
Qed.

Lemma read_digits_shift t : forall acc,
  read_digits acc t = acc * 10 ^ Z.of_nat (ndigits t) + read_digits 0 t.
Proof.
  induction t as [|c t IH]; intros acc; [cbn; lia|].
  cbn [read_digits ndigits].
  destruct ((48 <=? Z.of_nat (nat_of_ascii c)) && (Z.of_nat (nat_of_ascii c) <=? 57)).
  - rewrite (IH (acc * 10 + _)), (IH (0 * 10 + _)).
    rewrite Nat2Z.inj_succ, Z.pow_succ_r by lia. ring.
  - apply IH.
Qed.

Lemma in_range_list n k :
  0 <= k < Z.of_nat n -> In k (List.map Z.of_nat (seq 0 n)).
Proof.
  intros H. apply in_map_iff. exists (Z.to_nat k). split; [lia|].
  apply in_seq. lia.
Qed.

Lemma khz_text_ok k : 0 <= k < 1000 -> field_ok 3 (khz_text k) k = true.
Proof.
  intros H.
  assert (A : forallb (fun k => field_ok 3 (khz_text k) k)
                (List.map Z.of_nat (seq 0 1000)) = true) by (vm_compute; reflexivity).
  rewrite forallb_forall in A. apply A. now apply (in_range_list 1000).
Qed.

Lemma hz_text_ok h : 0 <= h < 100 -> field_ok 2 (hz_text h) h = true.
Proof.
  intros H.
  assert (A : forallb (fun h => field_ok 2 (hz_text h) h)
                (List.map Z.of_nat (seq 0 100)) = true) by (vm_compute; reflexivity).
  rewrite forallb_forall in A. apply A. now apply (in_range_list 100).
Qed.

Lemma field_ok_spec w t v :
  field_ok w t v = true ->
  (forall acc, read_digits acc t = acc * 10 ^ Z.of_nat w + v) /\ String.length t = w.
Proof.
  unfold field_ok. rewrite !andb_true_iff, Z.eqb_eq, !Nat.eqb_eq.
  intros [[Hv Hn] Hl]. split; [|exact Hl].
  intros acc. now rewrite read_digits_shift, Hn, Hv.
Qed.

(** The text [drawFrequency()] prints for a frequency of the band. *)
Lemma drawFrequency_text s :
  in_band (frequency s) ->
  printed_text (drawFrequency s) =
  String.append "7."
    (String.append (khz_text (frequency s / 1000 - 7000))
       (String.append "."
          (String.append (hz_text (frequency s mod 1000 / 10)) "MHz"))).
Proof.
  intros Hb. unfold in_band, FREQ_MIN, FREQ_MAX in Hb.
  assert (Hk : 7000 <= frequency s / 1000 <= 7200)
    by (split; [apply Z.div_le_lower_bound | apply Z.div_le_upper_bound]; lia).
  assert (Hm : 0 <= frequency s mod 1000 < 1000) by (apply Z.mod_pos_bound; lia).
  assert (Hh : 0 <= frequency s mod 1000 / 10 < 100)
    by (split; [apply Z.div_pos | apply Z.div_lt_upper_bound]; lia).
  assert (E1 : wrap32 (frequency s / 1000) = frequency s / 1000)
    by (unfold wrap32; apply Z.mod_small; lia).
  assert (E2 : wrap32 (frequency s mod 1000) = frequency s mod 1000)
    by (unfold wrap32; apply Z.mod_small; lia).
  assert (E3 : (frequency s / 1000) mod 1000 = frequency s / 1000 - 7000).
  { symmetry. apply (Z.mod_unique _ _ 7); lia. }
  assert (E4 : wrap16 (frequency s / 1000 - 7000) = frequency s / 1000 - 7000)
    by (unfold wrap16; apply Z.mod_small; lia).
  assert (E5 : wrap16 (frequency s mod 1000 / 10) = frequency s mod 1000 / 10)
    by (unfold wrap16; apply Z.mod_small; lia).
  assert (E6 : frequency s / 1000 / 1000 = 7).
  { symmetry. apply (Z.div_unique _ _ _ (frequency s / 1000 - 7000)); lia. }
  unfold drawFrequency. cbv zeta.
  rewrite E1, E2, E3, E4, E5, E6.
  unfold khz_text, hz_text.
  change (decimal 7) with "7"%string.
  destruct (frequency s / 1000 - 7000 <? 100), (frequency s / 1000 - 7000 <? 10),
    (frequency s mod 1000 / 10 <? 10); text_normal; reflexivity.
Qed.

(** X13. For every frequency of the band [drawFrequency()] prints exactly
    11 characters, "7.", three digits of kHz, ".", two digits of tens of Hz
    and "MHz" (the zero padding keeps the width fixed), and the digits read
    off the display, taken as a number of tens of Hz, give back the
    frequency rounded down to 10 Hz: the unit digit is not shown, and a
    frequency that is a multiple of 10 Hz is shown exactly. *)
Theorem frequency_text_round_trip (s : State) :
  in_band (frequency s) ->
  let t := printed_text (drawFrequency s) in
  t = String.append "7."
        (String.append (khz_text (frequency s / 1000 - 7000))
           (String.append "."
              (String.append (hz_text (frequency s mod 1000 / 10)) "MHz"))) /\
  String.length (khz_text (frequency s / 1000 - 7000)) = 3%nat /\
  String.length (hz_text (frequency s mod 1000 / 10)) = 2%nat /\
  String.length t = 11%nat /\
  read_digits 0 t * 10 = frequency s - frequency s mod 10 /\
  (frequency s mod 10 = 0 -> read_digits 0 t * 10 = frequency s).
Proof.
  intros Hb t. pose proof (drawFrequency_text s Hb) as Et. fold t in Et.
  unfold in_band, FREQ_MIN, FREQ_MAX in Hb.
  assert (Hk : 0 <= frequency s / 1000 - 7000 < 1000).
  { assert (7000 <= frequency s / 1000 <= 7200)
      by (split; [apply Z.div_le_lower_bound | apply Z.div_le_upper_bound]; lia).
    lia. }
  assert (Hh : 0 <= frequency s mod 1000 / 10 < 100).
  { assert (0 <= frequency s mod 1000 < 1000) by (apply Z.mod_pos_bound; lia).
    split; [apply Z.div_pos | apply Z.div_lt_upper_bound]; lia. }
  destruct (field_ok_spec _ _ _ (khz_text_ok _ Hk)) as [Rk Lk].
  destruct (field_ok_spec _ _ _ (hz_text_ok _ Hh)) as [Rh Lh].
  assert (Hr : read_digits 0 t =
               (7000 + (frequency s / 1000 - 7000)) * 100 + frequency s mod 1000 / 10).
  { rewrite Et, read_digits_app.
    change (read_digits 0 "7.") with 7.
    rewrite read_digits_app, Rk, read_digits_app.
    change (read_digits (7 * 10 ^ Z.of_nat 3 + (frequency s / 1000 - 7000)) ".")
      with (7 * 10 ^ Z.of_nat 3 + (frequency s / 1000 - 7000)).
    rewrite read_digits_app, Rh.
    change (read_digits ?x "MHz") with x.
    change (10 ^ Z.of_nat 3) with 1000. change (10 ^ Z.of_nat 2) with 100. ring. }
  assert (Hv : read_digits 0 t * 10 = frequency s - frequency s mod 10).
  { rewrite Hr. Z.div_mod_to_equations. lia. }
  split; [exact Et|]. split; [exact Lk|]. split; [exact Lh|].
  split.
  { rewrite Et, !string_length_append, Lk, Lh. reflexivity. }
  split; [exact Hv|]. intros H0. rewrite Hv, H0. lia.
Qed.

Lemma frequency_text_round_trip_witness :
  let s := set_frequency 7005070 (power_on ∅) in
  printed_text (drawFrequency s) = "7.005.07MHz"%string /\
  read_digits 0 (printed_text (drawFrequency s)) * 10 = 7005070.
Proof.
  intros s.
  destruct (frequency_text_round_trip s) as (_ & _ & _ & _ & _ & H).
  - unfold in_band; vm_compute; split; discriminate.
  - split; [vm_compute; reflexivity|]. apply H. reflexivity.
Defined.

(** The text of a whole frame: the frequency, then the step indicator, then
    the status line. *)
Lemma frame_text s :
  printed_text (frame_ops s) =
  String.append (printed_text (drawFrequency s))
    (String.append (printed_text (drawStepIndicator s)) (printed_text (drawStatus s))).
Proof.
  unfold frame_ops. rewrite !printed_text_app.
  change (printed_text [ClearDisplay]) with EmptyString.
  change (printed_text [DisplayShow]) with EmptyString.
  now rewrite string_append_nil_l, string_append_nil_r.
Qed.

(** X14. The frame distinguishes the states of the data model: if the text
    drawn for two states with in-band frequencies and table step sizes is
    the same, the two frequencies agree down to 10 Hz, and step size and
    transmit flag are equal; conversely the calls made for a frame depend
    on nothing but frequency, step size and transmit flag. *)
Theorem frame_text_determines_state (s1 s2 : State) :
  in_band (frequency s1) -> in_band (frequency s2) ->
  step_inv s1 -> step_inv s2 ->
  (printed_text (frame_ops s1) = printed_text (frame_ops s2) ->
   frequency s1 / 10 = frequency s2 / 10 /\
   step_size s1 = step_size s2 /\ tx_mode s1 = tx_mode s2) /\
  (snapshot s1 = snapshot s2 -> frame_ops s1 = frame_ops s2).
Proof.
  intros Hb1 Hb2 Hs1 Hs2. split.
  - rewrite !frame_text. intros H.
    assert (L : forall s, in_band (frequency s) ->
                  String.length (printed_text (drawFrequency s)) = 11%nat /\
                  read_digits 0 (printed_text (drawFrequency s)) * 10 =
                  frequency s - frequency s mod 10).
    { clear. intros s Hb. rewrite (drawFrequency_text s Hb).
      unfold in_band, FREQ_MIN, FREQ_MAX in Hb.
      assert (Hk : 0 <= frequency s / 1000 - 7000 < 1000).
      { assert (7000 <= frequency s / 1000 <= 7200)
          by (split; [apply Z.div_le_lower_bound | apply Z.div_le_upper_bound]; lia).
        lia. }
      assert (Hh : 0 <= frequency s mod 1000 / 10 < 100).
      { assert (0 <= frequency s mod 1000 < 1000) by (apply Z.mod_pos_bound; lia).
        split; [apply Z.div_pos | apply Z.div_lt_upper_bound]; lia. }
      destruct (field_ok_spec _ _ _ (khz_text_ok _ Hk)) as [Rk Lk].
      destruct (field_ok_spec _ _ _ (hz_text_ok _ Hh)) as [Rh Lh].
      split.
      - rewrite !string_length_append, Lk, Lh. reflexivity.
      - rewrite read_digits_app. change (read_digits 0 "7.") with 7.
        rewrite read_digits_app, Rk, read_digits_app.
        change (read_digits (7 * 10 ^ Z.of_nat 3 + (frequency s / 1000 - 7000)) ".")
          with (7 * 10 ^ Z.of_nat 3 + (frequency s / 1000 - 7000)).
        rewrite read_digits_app, Rh. change (read_digits ?x "MHz") with x.
        change (10 ^ Z.of_nat 3) with 1000. change (10 ^ Z.of_nat 2) with 100.
        Z.div_mod_to_equations. lia. }
    destruct (L s1 Hb1) as [L1 R1]. destruct (L s2 Hb2) as [L2 R2].
    apply string_append_inj in H as [Hf Hrest]; [|now rewrite L1, L2].
    split.
    { rewrite Hf in R1. rewrite R1 in R2. Z.div_mod_to_equations. lia. }
    clear - Hs1 Hs2 Hrest.
    unfold drawStepIndicator, drawStatus in Hrest.
    destruct (step_inv_cases s1 Hs1) as [Z1 | [Z1 | [Z1 | Z1]]];
      destruct (step_inv_cases s2 Hs2) as [Z2 | [Z2 | [Z2 | Z2]]];
      rewrite Z1, Z2 in Hrest |- *;
      destruct (tx_mode s1), (tx_mode s2);
      vm_compute in Hrest; try discriminate Hrest; split; reflexivity.
  - unfold snapshot. intros H.
    apply pair_equal_spec in H as [H Ht]. apply pair_equal_spec in H as [Hf Hz].
    unfold frame_ops, drawFrequency, drawStepIndicator, drawStatus.
    now rewrite Hf, Hz, Ht.
Qed.

Lemma frame_text_determines_state_witness :
  let s1 := set_frequency 7005070 (power_on ∅) in
  let s2 := set_tx_mode true s1 in
  printed_text (frame_ops s1) <> printed_text (frame_ops s2).
Proof.
  intros s1 s2 H.
  destruct (frame_text_determines_state s1 s2) as [G _].
  - unfold in_band; vm_compute; split; discriminate.
  - unfold in_band; vm_compute; split; discriminate.
  - unfold step_inv; vm_compute; repeat split; discriminate.
  - unfold step_inv; vm_compute; repeat split; discriminate.
  - destruct (G H) as (_ & _ & C). discriminate C.
Defined.

(** ** The two lines do not disturb each other *)

Lemma handlePTT_line i a b :
  same_ptt_line a b -> same_ptt_line (handlePTT i a) (handlePTT i b).
Proof.
  intros (E1 & E2 & E3). unfold handlePTT. rewrite E2, E3.
  destruct (negb (eqb (level i) (last_ptt_state b))); [|now repeat split].
  destruct (sub32 (t_check i) (last_ptt_time b) >? debounce_delay);
    [|now repeat split].
  cbn [tx_mode set_last_ptt_time]. rewrite E1.
  destruct (negb (eqb (eqb (level i) LOW) (tx_mode b))); repeat split.
  cbn. exact E1.
Qed.

Lemma handleEncoderSwitch_line i a b :
  same_switch_line a b ->
  same_switch_line (handleEncoderSwitch i a) (handleEncoderSwitch i b).
Proof.
  intros (E1 & E2 & E3).
  assert (Hc : forall t, same_switch_line (stepCycle t a) (stepCycle t b)).
  { intros t. unfold same_switch_line.
    rewrite !stepCycle_step_index, E1. split; [reflexivity|].
    destruct a, b; simpl in *. now split. }
  unfold handleEncoderSwitch. rewrite E2, E3.
  destruct (eqb (level i) LOW && eqb (last_sw_state b) HIGH).
  - destruct (sub32 (t_check i) (last_enc_sw_time b) >? debounce_delay).
    + destruct (Hc (t_store i)) as (C1 & _ & C3).
      destruct (set_last_sw_state_fields (level i) (stepCycle (t_store i) a)) as (Fa & _).
      destruct (set_last_sw_state_fields (level i) (stepCycle (t_store i) b)) as (Fb & _).
      destruct (set_last_sw_state_rest (level i) (stepCycle (t_store i) a))
        as (_ & _ & La & Ta).
      destruct (set_last_sw_state_rest (level i) (stepCycle (t_store i) b))
        as (_ & _ & Lb & Tb).
      unfold same_switch_line. rewrite Fa, Fb, La, Lb, Ta, Tb. now repeat split.
    + now repeat split.
  - now repeat split.
Qed.

Lemma handleEncoder_lines r s :
  same_ptt_line (handleEncoder r s) s /\ same_switch_line (handleEncoder r s) s.
Proof.
  unfold handleEncoder.
  destruct (r =? DIR_CW).
  - destruct (add64 (frequency s) (step_size s) <=? FREQ_MAX); now repeat split.
  - destruct (r =? DIR_CCW); [|now repeat split].
    destruct (frequency s >=? add64 (step_size s) FREQ_MIN); now repeat split.
Qed.

Lemma handlePTT_switch_line i s : same_switch_line (handlePTT i s) s.
Proof.
  destruct (handlePTT_keeps_tuning i s) as (_ & I & _).
  destruct (handlePTT_eeprom i s) as (_ & L & T).
  now repeat split.
Qed.

Lemma set_last_sw_state_ptt a s :
  last_ptt_state (set_last_sw_state a s) = last_ptt_state s /\
  last_ptt_time (set_last_sw_state a s) = last_ptt_time s.
Proof. split; reflexivity. Qed.

Lemma handleEncoderSwitch_ptt_line i s : same_ptt_line (handleEncoderSwitch i s) s.
Proof.
  destruct (handleEncoderSwitch_cases i s) as [-> | (_ & _ & _ & ->)];
    [now repeat split|].
  destruct (stepCycle_keeps (t_store i) s) as (_ & T & L & P).
  destruct (set_last_sw_state_tuning LOW (stepCycle (t_store i) s)) as (_ & _ & _ & X).
  destruct (set_last_sw_state_ptt LOW (stepCycle (t_store i) s)) as (Y1 & Y2).
  unfold same_ptt_line. rewrite X, T, Y1, Y2, L, P. now repeat split.
Qed.

Lemma loop_lines i a :
  same_ptt_line (loop i a) (handlePTT (ptt i) a) /\
  same_switch_line (loop i a) (handleEncoderSwitch (sw i) a).
Proof.
  rewrite loop_as_handlers.
  destruct (handleEncoder_lines (enc i) a) as [P1 S1].
  set (s1 := handleEncoder (enc i) a) in *.
  pose proof (handlePTT_line (ptt i) s1 a P1) as P2.
  pose proof (handlePTT_switch_line (ptt i) s1) as S2.
  set (s2 := handlePTT (ptt i) s1) in *.
  pose proof (handleEncoderSwitch_ptt_line (sw i) s2) as P3.
  assert (S2' : same_switch_line s2 a).
  { destruct S2 as (A1 & A2 & A3), S1 as (B1 & B2 & B3).
    unfold same_switch_line. now rewrite A1, A2, A3. }
  pose proof (handleEncoderSwitch_line (sw i) s2 a S2') as S3.
  set (s3 := handleEncoderSwitch (sw i) s2) in *. cbv zeta.
  assert (P3' : same_ptt_line s3 (handlePTT (ptt i) a)).
  { destruct P3 as (A1 & A2 & A3), P2 as (B1 & B2 & B3).
    unfold same_ptt_line. now rewrite A1, A2, A3. }
  destruct (display_update_needed s3); [|now split].
  split.
  - destruct P3' as (A1 & A2 & A3). now repeat split.
  - destruct S3 as (A1 & A2 & A3). now repeat split.
Qed.

(** X15. The PTT line and the encoder switch are handled independently of
    each other and of the encoder: after any run of the loop, [tx_mode] is
    what [handlePTT()] alone makes of the PTT samples, and the step index is
    what [handleEncoderSwitch()] alone makes of the switch samples. *)
Theorem lines_are_independent (s : State) (inputs : list LoopInput) :
  tx_mode (run inputs s) = tx_mode (ptt_samples (List.map ptt inputs) s) /\
  step_index (run inputs s) = step_index (sw_samples (List.map sw inputs) s).
Proof.
  assert (G : forall a b c,
             same_ptt_line a b -> same_switch_line a c ->
             same_ptt_line (run inputs a) (ptt_samples (List.map ptt inputs) b) /\
             same_switch_line (run inputs a) (sw_samples (List.map sw inputs) c)).
  { induction inputs as [|i inputs IH]; intros a b c Hp Hs; [now split|].
    change (run (i :: inputs) a) with (run inputs (loop i a)).
    change (ptt_samples (List.map ptt (i :: inputs)) b)
      with (ptt_samples (List.map ptt inputs) (handlePTT (ptt i) b)).
    change (sw_samples (List.map sw (i :: inputs)) c)
      with (sw_samples (List.map sw inputs) (handleEncoderSwitch (sw i) c)).
    destruct (loop_lines i a) as [Lp Ls].
    pose proof (handlePTT_line (ptt i) a b Hp) as Hp'.
    pose proof (handleEncoderSwitch_line (sw i) a c Hs) as Hs'.
    apply IH.
    - destruct Lp as (A1 & A2 & A3), Hp' as (B1 & B2 & B3).
      unfold same_ptt_line. now rewrite A1, A2, A3.
    - destruct Ls as (A1 & A2 & A3), Hs' as (B1 & B2 & B3).
      unfold same_switch_line. now rewrite A1, A2, A3. }
  destruct (G s s s) as [(Hp & _) (Hs & _)]; [now repeat split | now repeat split |].
  now split.
Qed.

(** ** Start-up *)

Lemma EEPROM_get_ext n (e e' : gmap Z byte) a :
  (forall i, a <= i < a + Z.of_nat n -> e !! i = e' !! i) ->
  EEPROM_get n e a = EEPROM_get n e' a.
Proof.
  intros H. unfold EEPROM_get. f_equal.
  apply List.map_ext_in. intros i Hi. apply in_seq in Hi.
  unfold EEPROM_read. rewrite H by lia. reflexivity.
Qed.

(** The tuning fields [loadSettings()] produces depend on the EEPROM and on
    the tuning fields it starts from, on nothing else. *)
Lemma loadSettings_tuning_ext s t :
  EEPROM_get 2 (eeprom s) EEPROM_MAGIC_ADDR = EEPROM_get 2 (eeprom t) EEPROM_MAGIC_ADDR ->
  EEPROM_get 4 (eeprom s) EEPROM_FREQ_ADDR = EEPROM_get 4 (eeprom t) EEPROM_FREQ_ADDR ->
  EEPROM_get 1 (eeprom s) EEPROM_STEP_ADDR = EEPROM_get 1 (eeprom t) EEPROM_STEP_ADDR ->
  frequency s = frequency t -> step_index s = step_index t ->
  step_size s = step_size t ->
  frequency (loadSettings s) = frequency (loadSettings t) /\
  step_index (loadSettings s) = step_index (loadSettings t) /\
  step_size (loadSettings s) = step_size (loadSettings t).
Proof.
  intros Hm Hf Hx Ef Ei Ez.
  destruct (Z.eq_dec (EEPROM_get 2 (eeprom s) EEPROM_MAGIC_ADDR) EEPROM_MAGIC_VALUE)
    as [M | M].
  - assert (M' := M). rewrite Hm in M'.
    destruct (loadSettings_accept s M) as (A1 & A2 & A3 & _).
    destruct (loadSettings_accept t M') as (B1 & B2 & B3 & _).
    rewrite A1, B1, A3, B3, A2, B2, Hf, Hx, Ef. repeat split.
  - assert (M' := M). rewrite Hm in M'.
    rewrite (loadSettings_reject s M), (loadSettings_reject t M'). now repeat split.
Qed.

(** X16. [loadSettings()] reads the seven bytes of the settings record and
    nothing else: two EEPROM contents that agree at the addresses 0..4 and
    8..9 give the same frequency, step index and step size at power-on,
    whatever the other cells hold. *)
Theorem load_reads_only_the_record (e e' : gmap Z byte) :
  (forall a, in_record a = true -> e !! a = e' !! a) ->
  frequency (loadSettings (power_on e)) = frequency (loadSettings (power_on e')) /\
  step_index (loadSettings (power_on e)) = step_index (loadSettings (power_on e')) /\
  step_size (loadSettings (power_on e)) = step_size (loadSettings (power_on e')).
Proof.
  intros H.
  apply loadSettings_tuning_ext; try reflexivity; cbn [eeprom power_on];
    apply EEPROM_get_ext; intros i Hi; apply H; unfold in_record;
    unfold EEPROM_MAGIC_ADDR, EEPROM_FREQ_ADDR, EEPROM_STEP_ADDR in Hi;
    cbn in Hi;
    repeat match goal with
           | |- context [?x <=? ?y] =>
               destruct (Z.leb_spec x y); try lia
           end; reflexivity.
Qed.

Lemma load_reads_only_the_record_witness :
  let e := eeprom_record 7050000 1 EEPROM_MAGIC_VALUE in
  frequency (loadSettings (power_on (<[6 := byte.of_Z 42]> e))) = 7050000 /\
  step_index (loadSettings (power_on (<[6 := byte.of_Z 42]> e))) = 1.
Proof.
  intros e.
  destruct (load_reads_only_the_record (<[6 := byte.of_Z 42]> e) e) as (Hf & Hi & _).
  - intros a Ha. apply lookup_insert_ne. intros <-. discriminate Ha.
  - split; [rewrite Hf | rewrite Hi]; reflexivity.
Defined.

(** X17. When both peripherals answer, [setup()] leaves the sketch in
    receive with the transmit-enable pin written LOW once, the tuning fields
    [loadSettings()] restored from the EEPROM, the tunable channel commanded
    once with (restored frequency + 9,000,000) * 100, one frame drawn that
    shows the restored state, and the EEPROM untouched; it halts exactly
    when the display or the synthesizer does not answer. *)
Theorem setup_contract display_ok i2c_found e :
  (setup display_ok i2c_found (power_on e) = None <->
   display_ok = false \/ i2c_found = false) /\
  (forall s0, setup display_ok i2c_found (power_on e) = Some s0 ->
     tx_mode s0 = false /\ tx_enable_writes (trace s0) = [LOW] /\
     frequency s0 = frequency (loadSettings (power_on e)) /\
     step_index s0 = step_index (loadSettings (power_on e)) /\
     step_size s0 = step_size (loadSettings (power_on e)) /\
     vfo_commands (trace s0) = [(frequency s0 + 9000000) * 100] /\
     renders (trace s0) = [snapshot s0] /\
     eeprom s0 = e).
Proof.
  split.
  - unfold setup, setupSi5351. destruct display_ok, i2c_found; cbn [negb];
      split; intros H; try discriminate H; try reflexivity; try tauto;
      destruct H as [H | H]; discriminate H.
  - intros s0 H.
    destruct (setup_trace _ _ _ _ H) as (T0 & msg & v & n & E0).
    pose proof (setup_commands _ _ _ _ H) as Hc.
    set (p := emit (SerialPrintln "Initializing...")
                (emit (SerialPrintln "7MHz SSB Transceiver")
                   (emit (DigitalWrite PIN_TX_EN LOW) (power_on e)))).
    assert (Hl : frequency (loadSettings p) = frequency (loadSettings (power_on e)) /\
                 step_index (loadSettings p) = step_index (loadSettings (power_on e)) /\
                 step_size (loadSettings p) = step_size (loadSettings (power_on e)))
      by (apply loadSettings_tuning_ext; reflexivity).
    assert (He : eeprom (loadSettings p) = e).
    { destruct (loadSettings_shape p) as (f & i & z & m & ->). reflexivity. }
    assert (Hs : frequency s0 = frequency (loadSettings p) /\
                 step_index s0 = step_index (loadSettings p) /\
                 step_size s0 = step_size (loadSettings p) /\
                 eeprom s0 = eeprom (loadSettings p)).
    { rewrite (setup_some _ _ _ _ H). fold p. now repeat split. }
    destruct Hs as (S1 & S2 & S3 & S4). destruct Hl as (L1 & L2 & L3).
    split; [exact T0|].
    split; [rewrite E0; reflexivity|].
    split; [now rewrite S1|]. split; [now rewrite S2|]. split; [now rewrite S3|].
    split; [exact Hc|].
    split; [rewrite E0; unfold snapshot; rewrite T0; reflexivity|].
    now rewrite S4.
Qed.

Lemma setup_contract_witness :
  exists s0,
    setup true true (power_on (eeprom_record 7050000 1 EEPROM_MAGIC_VALUE)) = Some s0 /\
    frequency s0 = 7050000 /\ vfo_commands (trace s0) = [1605000000].
Proof.
  eexists. split; [reflexivity|].
  destruct (setup_contract true true (eeprom_record 7050000 1 EEPROM_MAGIC_VALUE))
    as [_ H].
  destruct (H _ eq_refl) as (_ & _ & Hf & _ & _ & Hc & _).
  split; [rewrite Hf; reflexivity|]. rewrite Hc, Hf. reflexivity.
Defined.
